(** * GFSAR attendance tracker: the session life cycle and the exported log

    A shallow embedding of the handlers of [src/index.tsx] (the persisted,
    priority-sorted variant of the sign-in sheet) and the properties of the
    attendance store that its description states.

    Conventions of the embedding.
    - A JavaScript string is the list of its UTF-16 code units, so that
      [length], [padEnd] and [repeat] count what the source counts.
    - A [Date] is its [getTime()] value, an integer number of milliseconds.
      Every handler that reads the clock takes the reading as an argument.
    - [Array.prototype.sort] is stable; for a consistent comparator its
      result is the stable sorted arrangement, computed here by insertion.
    - [localeCompare], [toLowerCase] and the locale-dependent date formats
      are functions of the host; they are variables of the development.
    - A React state setter is a field update of the record [State]; the
      closure kept by the confirmation dialog is defunctionalised. *)

From Stdlib Require Import Ascii String DecimalString.
From Stdlib Require Import List ZArith NArith Lia Bool.
From Stdlib Require Import Sorted Permutation RelationClasses.
Import ListNotations.

Local Open Scope Z_scope.

(** ** Strings as sequences of UTF-16 code units *)

Definition jsstring := list N.

(** A source literal (ASCII only in this program). *)
Definition lit (s : string) : jsstring :=
  map N_of_ascii (list_ascii_of_string s).

Definition jsstring_eqb (a b : jsstring) : bool :=
  if list_eq_dec N.eq_dec a b then true else false.

(** [!s] on a string: only the empty string is falsy. *)
Definition isEmpty (s : jsstring) : bool :=
  match s with [] => true | _ => false end.

(** ECMAScript WhiteSpace and LineTerminator code points, as [trim] uses. *)
Definition isWhiteSpace (c : N) : bool :=
  ((9 <=? c) && (c <=? 13) || (c =? 32) || (c =? 160) || (c =? 5760)
   || (8192 <=? c) && (c <=? 8202) || (c =? 8232) || (c =? 8233)
   || (c =? 8239) || (c =? 8287) || (c =? 12288) || (c =? 65279))%N.

Fixpoint trimStart (s : jsstring) : jsstring :=
  match s with
  | c :: s' => if isWhiteSpace c then trimStart s' else s
  | [] => []
  end.

Definition trimEnd (s : jsstring) : jsstring := rev (trimStart (rev s)).

Definition trim (s : jsstring) : jsstring := trimEnd (trimStart s).

(** [s.padEnd(n, ' ')] *)
Definition padEnd (s : jsstring) (n : nat) : jsstring :=
  s ++ repeat 32%N (n - length s).

(** [s.padStart(n, '0')] *)
Definition padStart0 (s : jsstring) (n : nat) : jsstring :=
  repeat 48%N (n - length s) ++ s.

(** ['-'.repeat(n)] *)
Definition dashes (n : nat) : jsstring := repeat 45%N n.

(** Decimal rendering of an integer, as [toString] and template literals. *)
Definition numToString (z : Z) : jsstring :=
  lit (NilZero.string_of_int (Z.to_int z)).

(** [s.includes(t)] *)
Fixpoint startsWith (t s : jsstring) : bool :=
  match t, s with
  | [], _ => true
  | c :: t', d :: s' => (c =? d)%N && startsWith t' s'
  | _ :: _, [] => false
  end.

Fixpoint includes (s t : jsstring) : bool :=
  startsWith t s ||
  match s with
  | [] => false
  | _ :: s' => includes s' t
  end.

(** ** [Array.prototype.sort] with a comparator *)

Section Sort.
Context {A : Type}.
Variable cmp : A -> A -> Z.

(** The new element goes in front of the first element it does not
    follow, so elements that compare equal keep their order. *)
Fixpoint insert (x : A) (l : list A) : list A :=
  match l with
  | [] => [x]
  | y :: l' => if cmp x y <=? 0 then x :: l else y :: insert x l'
  end.

Definition sort (l : list A) : list A := fold_right insert [] l.
End Sort.

(** ** Type definitions *)

Record Member := { m_name : jsstring }.

Record ActiveSession := {
  s_name : jsstring;
  s_signInTime : Z
}.

Record LogEntry := {
  e_name : jsstring;
  e_signInTime : Z;
  e_signOutTime : Z
}.

Inductive ToastType := success | info | error_.

Record Toast := {
  t_id : Z;
  t_message : jsstring;
  t_type : ToastType
}.

Inductive ModalMode := add | edit.

(** The [onConfirm] closures the source hands to [openConfirmModal]. *)
Inductive ConfirmAction :=
| noAction
| startNewTaskFlow
| deleteAction (memberNameToDelete : jsstring)
| clearLogAction.

Record ConfirmModalProps := {
  cm_message : jsstring;
  cm_onConfirm : ConfirmAction
}.

(** ** Constants *)

Definition PREDEFINED_MEMBERS : list jsstring := map lit [
  "Andres Dean"; "Barry Savitskoff"; "Ben Peach"; "Bill Sperling"; "Brad Siemens";
  "Brennan Zorn"; "Cavan Gates"; "Chris Williams"; "Christina Mavinic"; "Clayton Marr";
  "Connie Bielert"; "David Bryan"; "Derek Pankoff"; "Duke Enns"; "Duncan Redfearn";
  "Erik Skaaning"; "Erin Peach"; "Graham Watt"; "Grant Burnard"; "Jackie Schott";
  "Jason Hall"; "Jason Hugh"; "Jennifer Erlendson"; "John Wheeler"; "John Younk";
  "Jon Wilson"; "Justin Darbyshire"; "Ken Lazeroff"; "Kristina Anderson"; "Madeline Williams";
  "Michael Slatnik"; "Nathan Hein"; "Nicky Winn"; "Rebecca Massey"; "Rocky Olsen";
  "Scott Lamont"; "Skye Fletcher"; "Spencer Novokshonoff"; "Steve Danshin"; "Trevor Carson";
  "Tyrell Polzin"
]%string.

(** ** The component state: one field per [useState] hook *)

Record State := {
  members : list Member;
  activeSessions : list ActiveSession;
  attendanceLog : list LogEntry;
  taskNumber : jsstring;
  isAddEditModalOpen : bool;
  modalMode : option ModalMode;
  memberNameInput : jsstring;
  memberToEdit : option Member;
  error : jsstring;
  isListEditModalOpen : bool;
  editingMemberList : list Member;
  isSignInModalOpen : bool;
  signInMemberName : jsstring;
  isNewTaskModalOpen : bool;
  newTaskNumberInput : jsstring;
  isConfirmModalOpen : bool;
  confirmModalProps : ConfirmModalProps;
  toasts : list Toast
}.

(** The state setters. *)
Definition setMembers (v : list Member) (st : State) : State :=
  {| members := v; activeSessions := activeSessions st;
     attendanceLog := attendanceLog st; taskNumber := taskNumber st;
     isAddEditModalOpen := isAddEditModalOpen st; modalMode := modalMode st;
     memberNameInput := memberNameInput st; memberToEdit := memberToEdit st;
     error := error st; isListEditModalOpen := isListEditModalOpen st;
     editingMemberList := editingMemberList st;
     isSignInModalOpen := isSignInModalOpen st;
     signInMemberName := signInMemberName st;
     isNewTaskModalOpen := isNewTaskModalOpen st;
     newTaskNumberInput := newTaskNumberInput st;
     isConfirmModalOpen := isConfirmModalOpen st;
     confirmModalProps := confirmModalProps st; toasts := toasts st |}.

Definition setActiveSessions (v : list ActiveSession) (st : State) : State :=
  {| members := members st; activeSessions := v;
     attendanceLog := attendanceLog st; taskNumber := taskNumber st;
     isAddEditModalOpen := isAddEditModalOpen st; modalMode := modalMode st;
     memberNameInput := memberNameInput st; memberToEdit := memberToEdit st;
     error := error st; isListEditModalOpen := isListEditModalOpen st;
     editingMemberList := editingMemberList st;
     isSignInModalOpen := isSignInModalOpen st;
     signInMemberName := signInMemberName st;
     isNewTaskModalOpen := isNewTaskModalOpen st;
     newTaskNumberInput := newTaskNumberInput st;
     isConfirmModalOpen := isConfirmModalOpen st;
     confirmModalProps := confirmModalProps st; toasts := toasts st |}.

Definition setAttendanceLog (v : list LogEntry) (st : State) : State :=
  {| members := members st; activeSessions := activeSessions st;
     attendanceLog := v; taskNumber := taskNumber st;
     isAddEditModalOpen := isAddEditModalOpen st; modalMode := modalMode st;
     memberNameInput := memberNameInput st; memberToEdit := memberToEdit st;
     error := error st; isListEditModalOpen := isListEditModalOpen st;
     editingMemberList := editingMemberList st;
     isSignInModalOpen := isSignInModalOpen st;
     signInMemberName := signInMemberName st;
     isNewTaskModalOpen := isNewTaskModalOpen st;
     newTaskNumberInput := newTaskNumberInput st;
     isConfirmModalOpen := isConfirmModalOpen st;
     confirmModalProps := confirmModalProps st; toasts := toasts st |}.

Definition setTaskNumber (v : jsstring) (st : State) : State :=
  {| members := members st; activeSessions := activeSessions st;
     attendanceLog := attendanceLog st; taskNumber := v;
     isAddEditModalOpen := isAddEditModalOpen st; modalMode := modalMode st;
     memberNameInput := memberNameInput st; memberToEdit := memberToEdit st;
     error := error st; isListEditModalOpen := isListEditModalOpen st;
     editingMemberList := editingMemberList st;
     isSignInModalOpen := isSignInModalOpen st;
     signInMemberName := signInMemberName st;
     isNewTaskModalOpen := isNewTaskModalOpen st;
     newTaskNumberInput := newTaskNumberInput st;
     isConfirmModalOpen := isConfirmModalOpen st;
     confirmModalProps := confirmModalProps st; toasts := toasts st |}.

Definition setIsAddEditModalOpen (v : bool) (st : State) : State :=
  {| members := members st; activeSessions := activeSessions st;
     attendanceLog := attendanceLog st; taskNumber := taskNumber st;
     isAddEditModalOpen := v; modalMode := modalMode st;
     memberNameInput := memberNameInput st; memberToEdit := memberToEdit st;
     error := error st; isListEditModalOpen := isListEditModalOpen st;
     editingMemberList := editingMemberList st;
     isSignInModalOpen := isSignInModalOpen st;
     signInMemberName := signInMemberName st;
     isNewTaskModalOpen := isNewTaskModalOpen st;
     newTaskNumberInput := newTaskNumberInput st;
     isConfirmModalOpen := isConfirmModalOpen st;
     confirmModalProps := confirmModalProps st; toasts := toasts st |}.

Definition setModalMode (v : option ModalMode) (st : State) : State :=
  {| members := members st; activeSessions := activeSessions st;
     attendanceLog := attendanceLog st; taskNumber := taskNumber st;
     isAddEditModalOpen := isAddEditModalOpen st; modalMode := v;
     memberNameInput := memberNameInput st; memberToEdit := memberToEdit st;
     error := error st; isListEditModalOpen := isListEditModalOpen st;
     editingMemberList := editingMemberList st;
     isSignInModalOpen := isSignInModalOpen st;
     signInMemberName := signInMemberName st;
     isNewTaskModalOpen := isNewTaskModalOpen st;
     newTaskNumberInput := newTaskNumberInput st;
     isConfirmModalOpen := isConfirmModalOpen st;
     confirmModalProps := confirmModalProps st; toasts := toasts st |}.

Definition setMemberNameInput (v : jsstring) (st : State) : State :=
  {| members := members st; activeSessions := activeSessions st;
     attendanceLog := attendanceLog st; taskNumber := taskNumber st;
     isAddEditModalOpen := isAddEditModalOpen st; modalMode := modalMode st;
     memberNameInput := v; memberToEdit := memberToEdit st;
     error := error st; isListEditModalOpen := isListEditModalOpen st;
     editingMemberList := editingMemberList st;
     isSignInModalOpen := isSignInModalOpen st;
     signInMemberName := signInMemberName st;
     isNewTaskModalOpen := isNewTaskModalOpen st;
     newTaskNumberInput := newTaskNumberInput st;
     isConfirmModalOpen := isConfirmModalOpen st;
     confirmModalProps := confirmModalProps st; toasts := toasts st |}.

Definition setMemberToEdit (v : option Member) (st : State) : State :=
  {| members := members st; activeSessions := activeSessions st;
     attendanceLog := attendanceLog st; taskNumber := taskNumber st;
     isAddEditModalOpen := isAddEditModalOpen st; modalMode := modalMode st;
     memberNameInput := memberNameInput st; memberToEdit := v;
     error := error st; isListEditModalOpen := isListEditModalOpen st;
     editingMemberList := editingMemberList st;
     isSignInModalOpen := isSignInModalOpen st;
     signInMemberName := signInMemberName st;
     isNewTaskModalOpen := isNewTaskModalOpen st;
     newTaskNumberInput := newTaskNumberInput st;
     isConfirmModalOpen := isConfirmModalOpen st;
     confirmModalProps := confirmModalProps st; toasts := toasts st |}.

Definition setError (v : jsstring) (st : State) : State :=
  {| members := members st; activeSessions := activeSessions st;
     attendanceLog := attendanceLog st; taskNumber := taskNumber st;
     isAddEditModalOpen := isAddEditModalOpen st; modalMode := modalMode st;
     memberNameInput := memberNameInput st; memberToEdit := memberToEdit st;
     error := v; isListEditModalOpen := isListEditModalOpen st;
     editingMemberList := editingMemberList st;
     isSignInModalOpen := isSignInModalOpen st;
     signInMemberName := signInMemberName st;
     isNewTaskModalOpen := isNewTaskModalOpen st;
     newTaskNumberInput := newTaskNumberInput st;
     isConfirmModalOpen := isConfirmModalOpen st;
     confirmModalProps := confirmModalProps st; toasts := toasts st |}.

Definition setIsListEditModalOpen (v : bool) (st : State) : State :=
  {| members := members st; activeSessions := activeSessions st;
     attendanceLog := attendanceLog st; taskNumber := taskNumber st;
     isAddEditModalOpen := isAddEditModalOpen st; modalMode := modalMode st;
     memberNameInput := memberNameInput st; memberToEdit := memberToEdit st;
     error := error st; isListEditModalOpen := v;
     editingMemberList := editingMemberList st;
     isSignInModalOpen := isSignInModalOpen st;
     signInMemberName := signInMemberName st;
     isNewTaskModalOpen := isNewTaskModalOpen st;
     newTaskNumberInput := newTaskNumberInput st;
     isConfirmModalOpen := isConfirmModalOpen st;
     confirmModalProps := confirmModalProps st; toasts := toasts st |}.

Definition setEditingMemberList (v : list Member) (st : State) : State :=
  {| members := members st; activeSessions := activeSessions st;
     attendanceLog := attendanceLog st; taskNumber := taskNumber st;
     isAddEditModalOpen := isAddEditModalOpen st; modalMode := modalMode st;
     memberNameInput := memberNameInput st; memberToEdit := memberToEdit st;
     error := error st; isListEditModalOpen := isListEditModalOpen st;
     editingMemberList := v; isSignInModalOpen := isSignInModalOpen st;
     signInMemberName := signInMemberName st;
     isNewTaskModalOpen := isNewTaskModalOpen st;
     newTaskNumberInput := newTaskNumberInput st;
     isConfirmModalOpen := isConfirmModalOpen st;
     confirmModalProps := confirmModalProps st; toasts := toasts st |}.

Definition setIsSignInModalOpen (v : bool) (st : State) : State :=
  {| members := members st; activeSessions := activeSessions st;
     attendanceLog := attendanceLog st; taskNumber := taskNumber st;
     isAddEditModalOpen := isAddEditModalOpen st; modalMode := modalMode st;
     memberNameInput := memberNameInput st; memberToEdit := memberToEdit st;
     error := error st; isListEditModalOpen := isListEditModalOpen st;
     editingMemberList := editingMemberList st; isSignInModalOpen := v;
     signInMemberName := signInMemberName st;
     isNewTaskModalOpen := isNewTaskModalOpen st;
     newTaskNumberInput := newTaskNumberInput st;
     isConfirmModalOpen := isConfirmModalOpen st;
     confirmModalProps := confirmModalProps st; toasts := toasts st |}.

Definition setSignInMemberName (v : jsstring) (st : State) : State :=
  {| members := members st; activeSessions := activeSessions st;
     attendanceLog := attendanceLog st; taskNumber := taskNumber st;
     isAddEditModalOpen := isAddEditModalOpen st; modalMode := modalMode st;
     memberNameInput := memberNameInput st; memberToEdit := memberToEdit st;
     error := error st; isListEditModalOpen := isListEditModalOpen st;
     editingMemberList := editingMemberList st;
     isSignInModalOpen := isSignInModalOpen st; signInMemberName := v;
     isNewTaskModalOpen := isNewTaskModalOpen st;
     newTaskNumberInput := newTaskNumberInput st;
     isConfirmModalOpen := isConfirmModalOpen st;
     confirmModalProps := confirmModalProps st; toasts := toasts st |}.

Definition setIsNewTaskModalOpen (v : bool) (st : State) : State :=
  {| members := members st; activeSessions := activeSessions st;
     attendanceLog := attendanceLog st; taskNumber := taskNumber st;
     isAddEditModalOpen := isAddEditModalOpen st; modalMode := modalMode st;
     memberNameInput := memberNameInput st; memberToEdit := memberToEdit st;
     error := error st; isListEditModalOpen := isListEditModalOpen st;
     editingMemberList := editingMemberList st;
     isSignInModalOpen := isSignInModalOpen st;
     signInMemberName := signInMemberName st; isNewTaskModalOpen := v;
     newTaskNumberInput := newTaskNumberInput st;
     isConfirmModalOpen := isConfirmModalOpen st;
     confirmModalProps := confirmModalProps st; toasts := toasts st |}.

Definition setNewTaskNumberInput (v : jsstring) (st : State) : State :=
  {| members := members st; activeSessions := activeSessions st;
     attendanceLog := attendanceLog st; taskNumber := taskNumber st;
     isAddEditModalOpen := isAddEditModalOpen st; modalMode := modalMode st;
     memberNameInput := memberNameInput st; memberToEdit := memberToEdit st;
     error := error st; isListEditModalOpen := isListEditModalOpen st;
     editingMemberList := editingMemberList st;
     isSignInModalOpen := isSignInModalOpen st;
     signInMemberName := signInMemberName st;
     isNewTaskModalOpen := isNewTaskModalOpen st; newTaskNumberInput := v;
     isConfirmModalOpen := isConfirmModalOpen st;
     confirmModalProps := confirmModalProps st; toasts := toasts st |}.

Definition setIsConfirmModalOpen (v : bool) (st : State) : State :=
  {| members := members st; activeSessions := activeSessions st;
     attendanceLog := attendanceLog st; taskNumber := taskNumber st;
     isAddEditModalOpen := isAddEditModalOpen st; modalMode := modalMode st;
     memberNameInput := memberNameInput st; memberToEdit := memberToEdit st;
     error := error st; isListEditModalOpen := isListEditModalOpen st;
     editingMemberList := editingMemberList st;
     isSignInModalOpen := isSignInModalOpen st;
     signInMemberName := signInMemberName st;
     isNewTaskModalOpen := isNewTaskModalOpen st;
     newTaskNumberInput := newTaskNumberInput st; isConfirmModalOpen := v;
     confirmModalProps := confirmModalProps st; toasts := toasts st |}.

Definition setConfirmModalProps (v : ConfirmModalProps) (st : State) : State :=
  {| members := members st; activeSessions := activeSessions st;
     attendanceLog := attendanceLog st; taskNumber := taskNumber st;
     isAddEditModalOpen := isAddEditModalOpen st; modalMode := modalMode st;
     memberNameInput := memberNameInput st; memberToEdit := memberToEdit st;
     error := error st; isListEditModalOpen := isListEditModalOpen st;
     editingMemberList := editingMemberList st;
     isSignInModalOpen := isSignInModalOpen st;
     signInMemberName := signInMemberName st;
     isNewTaskModalOpen := isNewTaskModalOpen st;
     newTaskNumberInput := newTaskNumberInput st;
     isConfirmModalOpen := isConfirmModalOpen st; confirmModalProps := v;
     toasts := toasts st |}.

Definition setToasts (v : list Toast) (st : State) : State :=
  {| members := members st; activeSessions := activeSessions st;
     attendanceLog := attendanceLog st; taskNumber := taskNumber st;
     isAddEditModalOpen := isAddEditModalOpen st; modalMode := modalMode st;
     memberNameInput := memberNameInput st; memberToEdit := memberToEdit st;
     error := error st; isListEditModalOpen := isListEditModalOpen st;
     editingMemberList := editingMemberList st;
     isSignInModalOpen := isSignInModalOpen st;
     signInMemberName := signInMemberName st;
     isNewTaskModalOpen := isNewTaskModalOpen st;
     newTaskNumberInput := newTaskNumberInput st;
     isConfirmModalOpen := isConfirmModalOpen st;
     confirmModalProps := confirmModalProps st; toasts := v |}.

Notation "st |> f" := (f st) (at level 45, left associativity, only parsing).

(** ** Host functions

    What the program takes from the JavaScript engine and its locale data:
    string collation, case mapping and the renderings of a [Date]. *)

Class Host := {
  (** [a.localeCompare(b)] *)
  localeCompare : jsstring -> jsstring -> Z;
  (** [s.toLowerCase()] *)
  toLowerCase : jsstring -> jsstring;
  (** [d.toLocaleString('en-US', { month: 'short', day: 'numeric',
      hour: 'numeric', minute: '2-digit', hour12: true })] *)
  toLocaleStringShort : Z -> jsstring;
  (** [d.toLocaleString()] *)
  toLocaleString : Z -> jsstring;
  (** [d.toISOString()] *)
  toISOString : Z -> jsstring;
  (** [d.getFullYear()], [d.getMonth()], [d.getDate()] in local time *)
  getFullYear : Z -> Z;
  getMonth : Z -> Z;
  getDate : Z -> Z
}.

(** The merged, display-ready entries of [sessionLog]. *)
Inductive Status := SignedIn | SignedOut.

Record SessionView := {
  v_name : jsstring;
  v_signInTime : Z;
  v_signOutTime : option Z;
  v_status : Status
}.

Definition isSignedIn (v : SessionView) : bool :=
  match v_status v with SignedIn => true | SignedOut => false end.

Definition statusText (s : Status) : jsstring :=
  match s with SignedIn => lit "Signed In" | SignedOut => lit "Signed Out" end.

Definition someNonEmpty {A : Type} (l : list A) : bool :=
  match l with [] => false | _ => true end.

Section App.
Context `{Host}.

Definition byMemberName (a b : Member) : Z :=
  localeCompare (m_name a) (m_name b).

Definition bySessionName (a b : ActiveSession) : Z :=
  localeCompare (s_name a) (s_name b).

Definition mkMember (name : jsstring) : Member := {| m_name := name |}.

Definition sortedPredefinedMembers : list Member :=
  sort byMemberName (map mkMember PREDEFINED_MEMBERS).

(** The state of the first render with nothing persisted. *)
Definition initialState : State :=
  {| members := sortedPredefinedMembers; activeSessions := [];
     attendanceLog := []; taskNumber := [];
     isAddEditModalOpen := false; modalMode := None;
     memberNameInput := []; memberToEdit := None; error := [];
     isListEditModalOpen := false; editingMemberList := [];
     isSignInModalOpen := false; signInMemberName := [];
     isNewTaskModalOpen := false; newTaskNumberInput := [];
     isConfirmModalOpen := false;
     confirmModalProps := {| cm_message := []; cm_onConfirm := noAction |};
     toasts := [] |}.

(** *** Utility and helper functions *)

(** [id] is the reading of [Date.now()]. *)
Definition addToast (message : jsstring) (type : ToastType) (id : Z)
    (st : State) : State :=
  st |> setToasts (toasts st ++
          [{| t_id := id; t_message := message; t_type := type |}]).

(** The timer that [addToast] arms, firing three seconds later. *)
Definition toastTimeout (id : Z) (st : State) : State :=
  st |> setToasts (filter (fun t => negb (t_id t =? id)) (toasts st)).

Definition formatDateTime (date : option Z) : jsstring :=
  match date with
  | None => []
  | Some d => toLocaleStringShort d
  end.

Definition generateDefaultTaskNumber (now : Z) : jsstring :=
  let year := getFullYear now in
  let month := padStart0 (numToString (getMonth now + 1)) 2 in
  let day := padStart0 (numToString (getDate now)) 2 in
  numToString year ++ month ++ day ++ lit "-01".

(** *** Modal controls *)

Definition openConfirmModal (message : jsstring) (onConfirm : ConfirmAction)
    (st : State) : State :=
  st |> setConfirmModalProps
          {| cm_message := message; cm_onConfirm := onConfirm |}
     |> setIsConfirmModalOpen true.

Definition closeConfirmModal (st : State) : State :=
  st |> setIsConfirmModalOpen false.

Definition openAddEditModal (mode : ModalMode) (member : option Member)
    (st : State) : State :=
  let st := st |> setModalMode (Some mode) |> setIsAddEditModalOpen true
               |> setError [] in
  match mode, member with
  | edit, Some m => st |> setMemberToEdit (Some m)
                       |> setMemberNameInput (m_name m)
  | _, _ => st |> setMemberNameInput [] |> setMemberToEdit None
  end.

Definition closeAddEditModal (st : State) : State :=
  st |> setIsAddEditModalOpen false |> setModalMode None
     |> setMemberNameInput [] |> setError [] |> setMemberToEdit None.

Definition openListEditModal (st : State) : State :=
  st |> setEditingMemberList (members st) |> setIsListEditModalOpen true.

Definition closeListEditModal (st : State) : State :=
  st |> setIsListEditModalOpen false |> setEditingMemberList [].

Definition hasActiveSession (name : jsstring) (st : State) : bool :=
  existsb (fun s => jsstring_eqb (s_name s) name) (activeSessions st).

Definition availableMembersForSignIn (st : State) : list Member :=
  filter (fun m => negb (hasActiveSession (m_name m) st)) (members st).

Definition openSignInModal (st : State) : State :=
  let availableMembers := availableMembersForSignIn st in
  st |> setSignInMemberName
          (match availableMembers with
           | m :: _ => m_name m
           | [] => []
           end)
     |> setIsSignInModalOpen true.

Definition closeSignInModal (st : State) : State :=
  st |> setIsSignInModalOpen false |> setSignInMemberName [].

Definition runStartNewTaskFlow (now : Z) (st : State) : State :=
  st |> setNewTaskNumberInput (generateDefaultTaskNumber now)
     |> setIsNewTaskModalOpen true.

Definition openNewTaskModal (now : Z) (st : State) : State :=
  if someNonEmpty (activeSessions st) || someNonEmpty (attendanceLog st)
  then st |> openConfirmModal
    (lit "Starting a new task will clear all current attendance records. Are you sure?")
    startNewTaskFlow
  else runStartNewTaskFlow now st.

Definition closeNewTaskModal (st : State) : State :=
  st |> setIsNewTaskModalOpen false |> setNewTaskNumberInput [].

(** *** Core logic handlers *)

(** [now] is the reading of [new Date()], [tid] that of the toast. *)
Definition handleSignIn (now tid : Z) (st : State) : State :=
  if isEmpty (signInMemberName st) then st else
  let newSession :=
    {| s_name := signInMemberName st; s_signInTime := now |} in
  st |> setActiveSessions
          (sort bySessionName (activeSessions st ++ [newSession]))
     |> addToast (signInMemberName st ++ lit " signed in.") success tid
     |> closeSignInModal.

Definition handleSignOut (memberName : jsstring) (now tid : Z)
    (st : State) : State :=
  match find (fun s => jsstring_eqb (s_name s) memberName)
             (activeSessions st) with
  | None => st
  | Some sessionToEnd =>
      let newLogEntry :=
        {| e_name := s_name sessionToEnd;
           e_signInTime := s_signInTime sessionToEnd;
           e_signOutTime := now |} in
      st |> setAttendanceLog (newLogEntry :: attendanceLog st)
         |> setActiveSessions
              (filter (fun s => negb (jsstring_eqb (s_name s) memberName))
                      (activeSessions st))
         |> addToast (memberName ++ lit " signed out.") info tid
  end.

Definition isModeAdd (m : option ModalMode) : bool :=
  match m with Some add => true | _ => false end.

Definition isModeEdit (m : option ModalMode) : bool :=
  match m with Some edit => true | _ => false end.

(** [member.name !== memberToEdit?.name] *)
Definition differsFromEdited (name : jsstring) (mte : option Member) : bool :=
  match mte with
  | Some m => negb (jsstring_eqb name (m_name m))
  | None => true
  end.

Definition isDuplicate (trimmedName : jsstring) (st : State) : bool :=
  existsb (fun member =>
    jsstring_eqb (toLowerCase (m_name member)) (toLowerCase trimmedName) &&
    (isModeAdd (modalMode st) ||
     (isModeEdit (modalMode st) &&
      differsFromEdited (m_name member) (memberToEdit st))))
    (members st).

Definition renameMemberIn (oldName newName : jsstring) (m : Member) : Member :=
  if jsstring_eqb (m_name m) oldName then {| m_name := newName |} else m.

Definition renameSessionIn (oldName newName : jsstring) (s : ActiveSession)
    : ActiveSession :=
  if jsstring_eqb (s_name s) oldName
  then {| s_name := newName; s_signInTime := s_signInTime s |} else s.

Definition renameEntryIn (oldName newName : jsstring) (e : LogEntry)
    : LogEntry :=
  if jsstring_eqb (e_name e) oldName
  then {| e_name := newName; e_signInTime := e_signInTime e;
          e_signOutTime := e_signOutTime e |}
  else e.

Definition handleSaveMember (tid : Z) (st : State) : State :=
  let trimmedName := trim (memberNameInput st) in
  if isEmpty trimmedName
  then st |> setError (lit "Member name cannot be empty.") else
  if isDuplicate trimmedName st
  then st |> setError (lit "A member with this name already exists.") else
  match modalMode st, memberToEdit st with
  | Some add, _ =>
      let newMember := {| m_name := trimmedName |} in
      st |> setMembers (sort byMemberName (members st ++ [newMember]))
         |> addToast (lit "New member added.") success tid
         |> closeAddEditModal
  | Some edit, Some edited =>
      let oldName := m_name edited in
      let newName := trimmedName in
      st |> setMembers
              (sort byMemberName
                 (map (renameMemberIn oldName newName) (members st)))
         |> setActiveSessions
              (sort bySessionName
                 (map (renameSessionIn oldName newName) (activeSessions st)))
         |> setAttendanceLog
              (map (renameEntryIn oldName newName) (attendanceLog st))
         |> addToast (lit "Member updated.") success tid
         |> closeAddEditModal
  | _, _ => st |> closeAddEditModal
  end.

Definition runDeleteAction (memberNameToDelete : jsstring) (tid : Z)
    (st : State) : State :=
  st |> setMembers
          (filter (fun m => negb (jsstring_eqb (m_name m) memberNameToDelete))
                  (members st))
     |> setActiveSessions
          (filter (fun s => negb (jsstring_eqb (s_name s) memberNameToDelete))
                  (activeSessions st))
     |> setAttendanceLog
          (filter (fun l => negb (jsstring_eqb (e_name l) memberNameToDelete))
                  (attendanceLog st))
     |> addToast (memberNameToDelete ++ lit " has been deleted.") error_ tid
     |> closeAddEditModal.

Definition handleDeleteMember (st : State) : State :=
  match memberToEdit st with
  | None => st
  | Some edited =>
      let memberNameToDelete := m_name edited in
      st |> openConfirmModal
        (lit "Delete " ++ memberNameToDelete ++
         lit "? This removes them from all records and cannot be undone.")
        (deleteAction memberNameToDelete)
  end.

Definition handleRemoveMemberFromEditList (memberName : jsstring)
    (st : State) : State :=
  st |> setEditingMemberList
          (filter (fun m => negb (jsstring_eqb (m_name m) memberName))
                  (editingMemberList st)).

Definition handleSaveMemberList (tid : Z) (st : State) : State :=
  let updatedMembers :=
    sort byMemberName
      (map (fun member => {| m_name := m_name member |})
           (editingMemberList st)) in
  st |> setMembers updatedMembers
     |> setActiveSessions []
     |> setAttendanceLog []
     |> addToast (lit "Member list has been reset.") success tid
     |> closeListEditModal.

Definition handleStartNewTask (tid : Z) (st : State) : State :=
  let trimmedTaskNumber := trim (newTaskNumberInput st) in
  if isEmpty trimmedTaskNumber then st else
  st |> setTaskNumber trimmedTaskNumber
     |> setActiveSessions []
     |> setAttendanceLog []
     |> addToast (lit "New task session started: " ++ trimmedTaskNumber)
          success tid
     |> closeNewTaskModal.

Definition runClearLogAction (tid : Z) (st : State) : State :=
  st |> setActiveSessions []
     |> setAttendanceLog []
     |> addToast (lit "Attendance log has been cleared.") info tid.

Definition handleClearLog (st : State) : State :=
  if negb (someNonEmpty (activeSessions st)) &&
     negb (someNonEmpty (attendanceLog st))
  then st
  else st |> openConfirmModal
    (lit "Clear the attendance log for this task? This cannot be undone.")
    clearLogAction.

(** [confirmModalProps.onConfirm()]; [now] is the one clock reading the
    stored closure makes, if it makes one. *)
Definition runConfirmAction (a : ConfirmAction) (now : Z) (st : State)
    : State :=
  match a with
  | noAction => st
  | startNewTaskFlow => runStartNewTaskFlow now st
  | deleteAction n => runDeleteAction n now st
  | clearLogAction => runClearLogAction now st
  end.

Definition handleConfirm (now : Z) (st : State) : State :=
  st |> runConfirmAction (cm_onConfirm (confirmModalProps st)) now
     |> closeConfirmModal.
(** *** Log transformation *)

Definition viewOfActive (session : ActiveSession) : SessionView :=
  {| v_name := s_name session; v_signInTime := s_signInTime session;
     v_signOutTime := None; v_status := SignedIn |}.

Definition viewOfLog (log : LogEntry) : SessionView :=
  {| v_name := e_name log; v_signInTime := e_signInTime log;
     v_signOutTime := Some (e_signOutTime log); v_status := SignedOut |}.

(** The comparator handed to [combinedLog.sort]. *)
Definition bySessionLog (a b : SessionView) : Z :=
  if isSignedIn a && negb (isSignedIn b) then -1
  else if isSignedIn b && negb (isSignedIn a) then 1
  else v_signInTime b - v_signInTime a.

Definition sessionLog (st : State) : list SessionView :=
  let allActiveSessions := map viewOfActive (activeSessions st) in
  let allPastSessions := map viewOfLog (attendanceLog st) in
  let combinedLog := allActiveSessions ++ allPastSessions in
  sort bySessionLog combinedLog.

(** *** The exported text *)

Definition newline : jsstring := [10%N].

Definition separator : jsstring := lit " | ".

(** [Math.max(...sessionLog.map(e => e.name.length), 'Member'.length)] *)
Definition maxNameLength (log : list SessionView) : nat :=
  fold_right Nat.max (length (lit "Member"))
    (map (fun e => length (v_name e)) log).

Definition exportHeader (generated : Z) (st : State) : jsstring :=
  let content := lit "Grand Forks Search and Rescue - Attendance Log" ++ newline in
  let content :=
    if isEmpty (taskNumber st) then content
    else content ++ lit "Task #: " ++ taskNumber st ++ newline in
  let content :=
    content ++ lit "Generated on: " ++ toLocaleString generated ++ newline in
  content ++
  lit "==================================================================================" ++
  newline ++ newline.

Definition exportColumns (maxNameLength : nat) : jsstring :=
  let nameHeader := padEnd (lit "Member") maxNameLength in
  let statusHeader := padEnd (lit "Status") 12 in
  let signInHeader := padEnd (lit "Signed In") 22 in
  let signOutHeader := lit "Signed Out" in
  nameHeader ++ separator ++ statusHeader ++ separator ++ signInHeader ++
  separator ++ signOutHeader ++ newline.

Definition exportRule (maxNameLength : nat) : jsstring :=
  dashes maxNameLength ++ lit "-+-" ++ dashes 12 ++ lit "-+-" ++
  dashes 22 ++ lit "-+-" ++ dashes 22 ++ newline.

(** The body of the [forEach] callback: the text one entry adds. *)
Definition exportRow (maxNameLength : nat) (session : SessionView) : jsstring :=
  let name := padEnd (v_name session) maxNameLength in
  let status := padEnd (statusText (v_status session)) 12 in
  let signIn := padEnd (formatDateTime (Some (v_signInTime session))) 22 in
  let signOut :=
    match v_signOutTime session with
    | Some t => formatDateTime (Some t)
    | None => lit "..."
    end in
  name ++ separator ++ status ++ separator ++ signIn ++ separator ++
  signOut ++ newline.

Definition noRecordsMessage : jsstring := lit "No attendance records found.".

(** The [content] string of [handleDownloadLog]; [generated] is the
    reading of the [new Date()] in the header. *)
Definition exportContent (generated : Z) (st : State) : jsstring :=
  let content := exportHeader generated st in
  let log := sessionLog st in
  if someNonEmpty log then
    let width := maxNameLength log in
    let content := content ++ exportColumns width in
    let content := content ++ exportRule width in
    fold_left (fun content session => content ++ exportRow width session)
      log content
  else content ++ newline ++ noRecordsMessage ++ newline.

Definition isAlphaNum (c : N) : bool :=
  ((97 <=? c) && (c <=? 122) || (65 <=? c) && (c <=? 90) ||
   (48 <=? c) && (c <=? 57))%N.

(** [taskNumber.replace(/[^a-z0-9]/gi, '_')] *)
Definition sanitize (s : jsstring) : jsstring :=
  map (fun c => if isAlphaNum c then c else 95%N) s.

(** [s.split('T')[0]] *)
Fixpoint beforeT (s : jsstring) : jsstring :=
  match s with
  | [] => []
  | c :: s' => if (c =? 84)%N then [] else c :: beforeT s'
  end.

Definition exportFileName (now : Z) (st : State) : jsstring :=
  let dateString := beforeT (toISOString now) in
  let sanitizedTaskNumber := sanitize (taskNumber st) in
  if isEmpty (taskNumber st)
  then lit "attendance_log_" ++ dateString ++ lit ".txt"
  else lit "task_" ++ sanitizedTaskNumber ++ lit "_log_" ++ dateString ++
       lit ".txt".

(** The download hands a file name and its content to the browser and
    leaves a toast behind. *)
Definition handleDownloadLog (now generated tid : Z) (st : State)
    : (jsstring * jsstring) * State :=
  ((exportFileName now st, exportContent generated st),
   st |> addToast (lit "Log downloaded.") info tid).

(** *** The user's actions

    One constructor per handler the page binds to a control. The values a
    control can deliver are not narrowed here (a select delivers any string,
    the member dialog opens on any member), so the runs below include every
    run of the page. *)

Inductive Event :=
| OpenSignInModal
| CloseSignInModal
| SelectSignInMember (value : jsstring)
| SignIn (now tid : Z)
| SignOut (memberName : jsstring) (now tid : Z)
| OpenAddEditModal (mode : ModalMode) (member : option Member)
| CloseAddEditModal
| TypeMemberName (value : jsstring)
| SaveMember (tid : Z)
| DeleteMember
| Confirm (now : Z)
| CloseConfirmModal
| OpenListEditModal
| CloseListEditModal
| RemoveMemberFromEditList (memberName : jsstring)
| SaveMemberList (tid : Z)
| OpenNewTaskModal (now : Z)
| CloseNewTaskModal
| TypeTaskNumber (value : jsstring)
| StartNewTask (tid : Z)
| ClearLog
| DownloadLog (now generated tid : Z)
| ToastTimeout (id : Z).

Definition step (ev : Event) (st : State) : State :=
  match ev with
  | OpenSignInModal => openSignInModal st
  | CloseSignInModal => closeSignInModal st
  | SelectSignInMember v => setSignInMemberName v st
  | SignIn now tid => handleSignIn now tid st
  | SignOut n now tid => handleSignOut n now tid st
  | OpenAddEditModal mode member => openAddEditModal mode member st
  | CloseAddEditModal => closeAddEditModal st
  | TypeMemberName v => setMemberNameInput v st
  | SaveMember tid => handleSaveMember tid st
  | DeleteMember => handleDeleteMember st
  | Confirm now => handleConfirm now st
  | CloseConfirmModal => closeConfirmModal st
  | OpenListEditModal => openListEditModal st
  | CloseListEditModal => closeListEditModal st
  | RemoveMemberFromEditList n => handleRemoveMemberFromEditList n st
  | SaveMemberList tid => handleSaveMemberList tid st
  | OpenNewTaskModal now => openNewTaskModal now st
  | CloseNewTaskModal => closeNewTaskModal st
  | TypeTaskNumber v => setNewTaskNumberInput v st
  | StartNewTask tid => handleStartNewTask tid st
  | ClearLog => handleClearLog st
  | DownloadLog now generated tid => snd (handleDownloadLog now generated tid st)
  | ToastTimeout id => toastTimeout id st
  end.

(** The clock readings an action makes, in the order it makes them. *)
Definition readings (ev : Event) : list Z :=
  match ev with
  | SignIn now tid | SignOut _ now tid => [now; tid]
  | SaveMember tid | SaveMemberList tid | StartNewTask tid => [tid]
  | Confirm now | OpenNewTaskModal now => [now]
  | DownloadLog now generated tid => [now; generated; tid]
  | _ => []
  end.

(** The readings never run backwards from the time [t]. *)
Fixpoint ticks (t : Z) (rs : list Z) : bool :=
  match rs with
  | [] => true
  | r :: rs' => (t <=? r) && ticks r rs'
  end.

Definition clockAfter (t : Z) (ev : Event) : Z := last (readings ev) t.

(** [run t evs st]: the clock and the state after the actions [evs],
    started with the clock at [t]; [None] when some reading would lie
    before an earlier one. *)
Fixpoint run (t : Z) (evs : list Event) (st : State) : option (Z * State) :=
  match evs with
  | [] => Some (t, st)
  | ev :: evs' =>
      if ticks t (readings ev)
      then run (clockAfter t ev) evs' (step ev st)
      else None
  end.

(** States the component reaches from its first render, with the clock
    standing at [t]. *)
Definition reachableAt (t : Z) (st : State) : Prop :=
  exists t0 evs, run t0 evs initialState = Some (t, st).

Definition reachable (st : State) : Prop := exists t, reachableAt t st.

(** *** The operations of the attendance store, as the dialogs drive them *)

Definition signIn (name : jsstring) (now tid : Z) (st : State) : State :=
  st |> setSignInMemberName name |> handleSignIn now tid.

Definition signOut (name : jsstring) (now tid : Z) (st : State) : State :=
  handleSignOut name now tid st.

Definition addMember (input : jsstring) (tid : Z) (st : State) : State :=
  st |> openAddEditModal add None |> setMemberNameInput input
     |> handleSaveMember tid.

Definition renameMember (oldName input : jsstring) (tid : Z) (st : State)
    : State :=
  st |> openAddEditModal edit (Some {| m_name := oldName |})
     |> setMemberNameInput input |> handleSaveMember tid.

Definition replaceRoster (newMembers : list Member) (tid : Z) (st : State)
    : State :=
  st |> setEditingMemberList newMembers |> handleSaveMemberList tid.
End App.

(** ** Vocabulary of the properties *)

(** [a] may stand before [b] under the comparator [cmp]. *)
Definition before {A : Type} (cmp : A -> A -> Z) (a b : A) : Prop :=
  cmp a b <= 0.

(** A consistent comparator, for which [sort] is specified. *)
Class Consistent {A : Type} (cmp : A -> A -> Z) : Prop := {
  cmp_total : forall a b, cmp a b <= 0 \/ cmp b a <= 0;
  cmp_trans : forall a b c, cmp a b <= 0 -> cmp b c <= 0 -> cmp a c <= 0
}.

(** What the development asks of the host: a collation that orders. *)
Class HostLaws (H : Host) : Prop :=
  localeCompare_consistent :: Consistent localeCompare.

(** The order of the merged view: present members first, and the most
    recent sign-in first among entries of one status. *)
Definition viewOrder (a b : SessionView) : Prop :=
  (v_status a = SignedIn /\ v_status b = SignedOut) \/
  (v_status a = v_status b /\ v_signInTime b <= v_signInTime a).

(** An entry of the merged view without its name. *)
Definition sansName (v : SessionView) : Z * option Z * Status :=
  (v_signInTime v, v_signOutTime v, v_status v).

Definition renameViewIn (oldName newName : jsstring) (v : SessionView)
    : SessionView :=
  if jsstring_eqb (v_name v) oldName
  then {| v_name := newName; v_signInTime := v_signInTime v;
          v_signOutTime := v_signOutTime v; v_status := v_status v |}
  else v.

Definition completed (e : LogEntry) : Prop := e_signInTime e <= e_signOutTime e.

Definition strictlyCompleted (e : LogEntry) : Prop :=
  e_signInTime e < e_signOutTime e.

(** The two validation errors of the member dialog, and the text each
    leaves in the [error] field. *)
Inductive ValidationError := EmptyName | DuplicateName.

Definition validationMessage (e : ValidationError) : jsstring :=
  match e with
  | EmptyName => lit "Member name cannot be empty."
  | DuplicateName => lit "A member with this name already exists."
  end.

(** [st'] is [st] after a save that was refused with the error [e]:
    nothing but the error text has changed. *)
Definition rejected (e : ValidationError) (st st' : State) : Prop :=
  st' = setError (validationMessage e) st.

(** Sign-in times, latest first: how [bySessionLog] compares two active
    sessions. *)
Definition byStart (a b : ActiveSession) : Z :=
  s_signInTime b - s_signInTime a.

(** ** A host to compute with

    Collation by code units, ASCII case mapping, and dates rendered as
    their millisecond count. *)

Fixpoint compareUnits (a b : jsstring) : Z :=
  match a, b with
  | [], [] => 0
  | [], _ :: _ => -1
  | _ :: _, [] => 1
  | c :: a', d :: b' =>
      if (c <? d)%N then -1 else if (d <? c)%N then 1 else compareUnits a' b'
  end.

Definition lowerASCII (s : jsstring) : jsstring :=
  map (fun c => if ((65 <=? c) && (c <=? 90))%N then (c + 32)%N else c) s.

Definition plainHost : Host :=
  {| localeCompare := compareUnits;
     toLowerCase := lowerASCII;
     toLocaleStringShort := numToString;
     toLocaleString := numToString;
     toISOString := fun t => numToString t ++ lit "T";
     getFullYear := fun t => 1970 + t / 31556952000;
     getMonth := fun _ => 0;
     getDate := fun _ => 1 |}.

(** ** Invariants of the session life cycle *)

(** No open session was started after the time [t], and no completed
    session ends before it starts. *)
Definition clockInvariant (t : Z) (st : State) : Prop :=
  Forall (fun s => s_signInTime s <= t) (activeSessions st) /\
  Forall completed (attendanceLog st).

Definition rosterSorted `{Host} (st : State) : Prop :=
  StronglySorted (before byMemberName) (members st).

(** ** Worked scenarios on [plainHost] *)

Definition andres : jsstring := lit "Andres Dean".

Definition startState : State := initialState (H := plainHost).

(** The first member of the roster, signed in. *)
Definition andresSignedIn : State :=
  signIn (H := plainHost) andres 1 1 startState.

(** A sign-in and the sign-out that follows it within one clock tick. *)
Definition sameTickTrace : list Event :=
  [OpenSignInModal; SignIn 5 5; SignOut andres 5 5].

Definition sameTickState : State :=
  startState |> step (H := plainHost) OpenSignInModal
             |> step (H := plainHost) (SignIn 5 5)
             |> step (H := plainHost) (SignOut andres 5 5).

Definition zoeDialog : State :=
  startState |> openAddEditModal add None
             |> setMemberNameInput (lit "  Zoe Quinn ").

Definition zoe : jsstring := lit "Zoe Quinn".

(** A roster handed over out of order, while a member is signed in. *)
Definition shortRoster : list Member :=
  [{| m_name := lit "Bob" |}; {| m_name := lit "Alice" |}].

Definition barry : jsstring := lit "Barry Savitskoff".

(** Two members signed in at the same instant, one of them with an earlier
    completed session, and the dialog open to rename that one. *)
Definition renameDialog : State :=
  startState |> signIn (H := plainHost) andres 1 1
             |> signIn (H := plainHost) barry 1 1
             |> signOut barry 3 3
             |> signIn (H := plainHost) barry 4 4
             |> signIn (H := plainHost) (lit "Ben Peach") 4 4
             |> openAddEditModal edit (Some {| m_name := barry |})
             |> setMemberNameInput (lit " Zed ").

(** A name that is on no roster, chosen for the sign-in. *)
Definition stranger : jsstring := lit "Zed Nobody".

Definition strangerChosen : State := setSignInMemberName stranger startState.

(** A task whose number is the text of the no-records message, with one
    member signed in. *)
Definition mislabelledTrace : list Event :=
  [OpenNewTaskModal 0; TypeTaskNumber noRecordsMessage; StartNewTask 1;
   OpenSignInModal; SignIn 2 2].

Definition mislabelledTask : State :=
  fold_left (fun st ev => step (H := plainHost) ev st) mislabelledTrace startState.

(** One member present, another who came earlier and has left. *)
Definition oneEach : State :=
  startState |> signIn (H := plainHost) barry 1 1
             |> signOut barry 3 3
             |> signIn (H := plainHost) andres 4 4.

(** ** Further vocabulary: the data the page keeps, and names *)

(** The persisted data: roster, open sessions, log and task number. *)
Definition storeOf (st : State)
    : list Member * list ActiveSession * list LogEntry * jsstring :=
  (members st, activeSessions st, attendanceLog st, taskNumber st).

(** The actions whose handlers write to the persisted data. *)
Definition writesStore (ev : Event) : bool :=
  match ev with
  | SignIn _ _ | SignOut _ _ _ | SaveMember _ | Confirm _
  | SaveMemberList _ | StartNewTask _ => true
  | _ => false
  end.

(** A name as the member dialog stores it: not empty, nothing to trim. *)
Definition wellFormedName (s : jsstring) : Prop := s <> [] /\ trim s = s.

Definition lowerName `{Host} (m : Member) : jsstring := toLowerCase (m_name m).

Definition named (n : jsstring) (v : SessionView) : bool :=
  jsstring_eqb (v_name v) n.

(** A code unit that [sanitize] lets through or writes. *)
Definition isFileNameUnit (c : N) : bool := isAlphaNum c || (c =? 95)%N.

(** The text of a row or of the column header before its last column. *)
Definition leadingColumns `{Host} (w : nat) (v : SessionView) : jsstring :=
  padEnd (v_name v) w ++ separator ++
  padEnd (statusText (v_status v)) 12 ++ separator ++
  padEnd (formatDateTime (Some (v_signInTime v))) 22 ++ separator.

(** The names struck from the list in the list dialog, one click each. *)
Definition removeAll (names : list jsstring) (st : State) : State :=
  fold_left (fun st n => handleRemoveMemberFromEditList n st) names st.

Definition keptBy (names : list jsstring) (m : Member) : bool :=
  negb (existsb (fun n => jsstring_eqb (m_name m) n) names).

(** Invariants of the roster and of the copy the list dialog edits. *)
Definition namesWellFormed (st : State) : Prop :=
  Forall (fun m => wellFormedName (m_name m)) (members st) /\
  Forall (fun m => wellFormedName (m_name m)) (editingMemberList st).

Definition namesDistinct `{Host} (st : State) : Prop :=
  NoDup (map lowerName (members st)) /\
  NoDup (map lowerName (editingMemberList st)).

Definition sessionsSorted `{Host} (st : State) : Prop :=
  StronglySorted (before bySessionName) (activeSessions st).

(** ** The unpersisted variant of the page ([src/unnamed/part_000])

    It keeps the same three collections and shows them merged by sign-in
    time alone. *)

Record CombinedEntry := {
  c_name : jsstring;
  c_signInTime : Z;
  c_signOutTime : option Z
}.

Definition combinedOfActive (session : ActiveSession) : CombinedEntry :=
  {| c_name := s_name session; c_signInTime := s_signInTime session;
     c_signOutTime := None |}.

Definition combinedOfLog (log : LogEntry) : CombinedEntry :=
  {| c_name := e_name log; c_signInTime := e_signInTime log;
     c_signOutTime := Some (e_signOutTime log) |}.

Definition byCombined (a b : CombinedEntry) : Z :=
  c_signInTime b - c_signInTime a.

Definition combinedLog (st : State) : list CombinedEntry :=
  sort byCombined
    (map combinedOfActive (activeSessions st) ++
     map combinedOfLog (attendanceLog st)).

Definition sansStatus (v : SessionView) : CombinedEntry :=
  {| c_name := v_name v; c_signInTime := v_signInTime v;
     c_signOutTime := v_signOutTime v |}.

Definition byLogStart (a b : LogEntry) : Z := e_signInTime b - e_signInTime a.

(** ** Further scenarios on [plainHost] *)

(** The state of [renameDialog] before the dialog was opened. *)
Definition busyState : State :=
  startState |> signIn (H := plainHost) andres 1 1
             |> signIn (H := plainHost) barry 1 1
             |> signOut barry 3 3
             |> signIn (H := plainHost) barry 4 4
             |> signIn (H := plainHost) (lit "Ben Peach") 4 4.

Definition busyTrace : list Event :=
  [SelectSignInMember andres; SignIn 1 1;
   SelectSignInMember barry; SignIn 1 1;
   SignOut barry 3 3;
   SelectSignInMember barry; SignIn 4 4;
   SelectSignInMember (lit "Ben Peach"); SignIn 4 4].

(** A member who left before the one now present arrived. *)
Definition lateArrival : State :=
  startState |> signIn (H := plainHost) andres 1 1
             |> signIn (H := plainHost) barry 2 2
             |> signOut barry 3 3.

(** A member is added through the dialog. *)
Definition zoeTrace : list Event :=
  [OpenAddEditModal add None; TypeMemberName (lit "  Zoe Quinn "); SaveMember 7].

Definition zoeAdded : State := handleSaveMember (H := plainHost) 7 zoeDialog.

(** A task is started with a number typed with blanks around it. *)
Definition taskTrace : list Event :=
  [OpenNewTaskModal 0; TypeTaskNumber (lit " 2024-05 "); StartNewTask 1].

Definition taskStarted : State :=
  fold_left (fun st ev => step (H := plainHost) ev st) taskTrace startState.

(** The member dialog open on a member who is signed in and has a
    completed session. *)
Definition barryDialog : State :=
  busyState |> openAddEditModal edit (Some {| m_name := barry |}).

(** The member dialog of [barryDialog] with the member's own name typed
    in capitals. *)
Definition barryShouted : State :=
  barryDialog |> setMemberNameInput (lit " BARRY SAVITSKOFF ").

(** A task number with a slash, a blank and an accented letter. *)
Definition awkwardTaskNumber : jsstring :=
  lit "2024/05 caf" ++ [233%N].

(** A string of white space only, as [trim] sees it. *)
Definition isBlank (s : jsstring) : Prop :=
  Forall (fun c => isWhiteSpace c = true) s.

(** Adding a member through the dialog and deleting that member through
    the dialog, confirmation included. *)
Definition addThenDelete `{Host} (input : jsstring) (tid1 tid2 : Z)
    (st : State) : State :=
  st |> addMember input tid1
     |> openAddEditModal edit (Some {| m_name := trim input |})
     |> handleDeleteMember
     |> handleConfirm tid2.

(** ** Order and renaming, said without the handlers' helpers *)

(** [a] is not after [b] in the locale's collation. *)
Definition nameOrder `{Host} (a b : jsstring) : Prop := localeCompare a b <= 0.

(** The name [x] after every [oldName] has become [newName]. *)
Definition substName (oldName newName x : jsstring) : jsstring :=
  if jsstring_eqb x oldName then newName else x.

(** The state after a sequence of actions, whatever the clock showed. *)
Definition afterAll `{Host} (evs : list Event) (st : State) : State :=
  fold_left (fun st ev => step ev st) evs st.

(** ** Scenarios that reorder *)

(** A new member whose name belongs in the middle of the roster. *)
Definition bobDialog : State :=
  startState |> openAddEditModal add None
             |> setMemberNameInput (lit " Bob Marley ").

(** A member is added, another renamed to the end of the alphabet, a third
    deleted and a fourth struck from the list. *)
Definition rosterWorkedTrace : list Event :=
  [OpenAddEditModal add None; TypeMemberName (lit " Bob Marley ");
   SaveMember 1;
   OpenAddEditModal edit (Some {| m_name := barry |});
   TypeMemberName (lit " Zed "); SaveMember 2;
   OpenAddEditModal edit (Some {| m_name := andres |});
   DeleteMember; Confirm 3;
   OpenListEditModal; RemoveMemberFromEditList (lit "Ben Peach");
   SaveMemberList 4].

Definition rosterWorked : State :=
  afterAll (H := plainHost) rosterWorkedTrace startState.

(** Three members sign in, the alphabetically last of them first. *)
Definition shuffledTrace : list Event :=
  [SelectSignInMember (lit "Ben Peach"); SignIn 1 1;
   SelectSignInMember andres; SignIn 2 2;
   SelectSignInMember barry; SignIn 3 3].

Definition shuffledState : State :=
  afterAll (H := plainHost) shuffledTrace startState.

(** * Properties *)

(** ** The definitions at work *)

Example trim_strips_both_ends :
  trim (lit "  Zoe Quinn ") = lit "Zoe Quinn" /\
  trim ([9; 160; 8232] ++ lit "a b" ++ [65279; 13; 10])%N = lit "a b" /\
  trim (lit "   ") = [].
Proof. repeat split. Qed.

(** Entries that compare equal keep the order they arrived in. *)
Example sort_is_stable :
  sort (fun a b : Z * Z => fst a - fst b) [(2, 1); (1, 2); (2, 3); (1, 4)]
  = [(1, 2); (1, 4); (2, 1); (2, 3)].
Proof. reflexivity. Qed.

Example padEnd_pads_or_keeps :
  padEnd (lit "Member") 8 = lit "Member  " /\
  padEnd (lit "Member") 3 = lit "Member".
Proof. split; reflexivity. Qed.

Example default_task_number :
  generateDefaultTaskNumber (H := plainHost) 0 = lit "19700101-01".
Proof. reflexivity. Qed.

Example file_name_of_task :
  exportFileName (H := plainHost) 86400000
    (setTaskNumber (lit "2024/05-a") startState)
  = lit "task_2024_05_a_log_86400000.txt" /\
  exportFileName (H := plainHost) 86400000 startState
  = lit "attendance_log_86400000.txt".
Proof. split; reflexivity. Qed.

Example first_roster_in_order :
  map m_name (firstn 3 (members startState))
  = [lit "Andres Dean"; lit "Barry Savitskoff"; lit "Ben Peach"] /\
  length (members startState) = 41%nat.
Proof. split; reflexivity. Qed.

(** ** Strings *)

Lemma jsstring_eqb_eq (a b : jsstring) : jsstring_eqb a b = true <-> a = b.
Proof.
  unfold jsstring_eqb. destruct (list_eq_dec N.eq_dec a b); split; congruence.
Qed.

Lemma jsstring_eqb_refl (a : jsstring) : jsstring_eqb a a = true.
Proof. now apply jsstring_eqb_eq. Qed.

Lemma jsstring_eqb_neq (a b : jsstring) : jsstring_eqb a b = false <-> a <> b.
Proof.
  unfold jsstring_eqb. destruct (list_eq_dec N.eq_dec a b); split; congruence.
Qed.

Lemma isEmpty_true (s : jsstring) : isEmpty s = true <-> s = [].
Proof. destruct s; simpl; split; congruence. Qed.

Lemma isEmpty_false (s : jsstring) : isEmpty s = false <-> s <> [].
Proof. destruct s; simpl; split; congruence. Qed.

Lemma someNonEmpty_false {A : Type} (l : list A) :
  someNonEmpty l = false <-> l = [].
Proof. destruct l; simpl; split; congruence. Qed.

Lemma padEnd_length (s : jsstring) (n : nat) :
  (length s <= n)%nat -> length (padEnd s n) = n.
Proof.
  intros Hle. unfold padEnd. rewrite length_app, repeat_length. lia.
Qed.

Lemma startsWith_app (t s : jsstring) : startsWith t (t ++ s) = true.
Proof.
  induction t as [|c t IH]; simpl; [reflexivity|].
  now rewrite N.eqb_refl, IH.
Qed.

Lemma includes_app_r (p s t : jsstring) :
  includes s t = true -> includes (p ++ s) t = true.
Proof.
  intros Hs. induction p as [|c p IH]; simpl; [exact Hs|].
  rewrite IH. apply orb_true_r.
Qed.

Lemma includes_infix (p t s : jsstring) : includes (p ++ t ++ s) t = true.
Proof.
  apply includes_app_r. destruct (t ++ s) eqn:E; simpl; rewrite <- E;
    now rewrite startsWith_app.
Qed.

(** ** Sorting *)

Section SortFacts.
Context {A : Type} (cmp : A -> A -> Z).

Lemma insert_perm (x : A) (l : list A) : Permutation (insert cmp x l) (x :: l).
Proof.
  induction l as [|y l IH]; simpl; [reflexivity|].
  destruct (cmp x y <=? 0); [reflexivity|].
  rewrite IH. apply perm_swap.
Qed.

Lemma sort_perm (l : list A) : Permutation (sort cmp l) l.
Proof.
  induction l as [|x l IH]; simpl; [reflexivity|].
  rewrite insert_perm. now constructor.
Qed.

Lemma sort_length (l : list A) : length (sort cmp l) = length l.
Proof. apply Permutation_length, sort_perm. Qed.

Lemma sort_In (x : A) (l : list A) : In x (sort cmp l) <-> In x l.
Proof.
  split; apply Permutation_in; [|symmetry]; apply sort_perm.
Qed.

(** An element that may stand before the whole of [r] is inserted
    without looking into [r]. *)
Lemma insert_app (x : A) (l r : list A) :
  Forall (before cmp x) r -> insert cmp x (l ++ r) = insert cmp x l ++ r.
Proof.
  intros Hr. induction l as [|y l IH]; simpl.
  - destruct Hr as [|b r Hb _]; simpl; [reflexivity|].
    unfold before in Hb. apply Z.leb_le in Hb. now rewrite Hb.
  - destruct (cmp x y <=? 0); [reflexivity|]. now rewrite IH.
Qed.

Lemma sort_app (l r : list A) :
  (forall a b, In a l -> In b r -> before cmp a b) ->
  sort cmp (l ++ r) = sort cmp l ++ sort cmp r.
Proof.
  induction l as [|x l IH]; intros Hlr; simpl; [reflexivity|].
  rewrite IH by (intros; apply Hlr; simpl; auto).
  apply insert_app. apply Forall_forall. intros b Hb.
  apply Hlr; [now left | apply (proj1 (sort_In b r)), Hb].
Qed.

Section Ordered.
Context `{!Consistent cmp}.

#[local] Instance before_trans : Transitive (before cmp).
Proof. intros a b c. apply cmp_trans. Qed.

Lemma insert_sorted (x : A) (l : list A) :
  Sorted (before cmp) l -> Sorted (before cmp) (insert cmp x l).
Proof.
  induction 1 as [|y l Hl IH Hy]; simpl; [repeat constructor|].
  destruct (cmp x y <=? 0) eqn:E.
  - apply Z.leb_le in E. repeat constructor; assumption.
  - apply Z.leb_gt in E.
    assert (Hyx : before cmp y x).
    { destruct (cmp_total x y) as [Hxy|Hyx]; [lia | exact Hyx]. }
    constructor; [exact IH|].
    destruct Hy as [|z l Hyz]; simpl; [now constructor|].
    destruct (cmp x z <=? 0); now constructor.
Qed.

Lemma sort_sorted (l : list A) : StronglySorted (before cmp) (sort cmp l).
Proof.
  apply Sorted_StronglySorted; [exact before_trans|].
  induction l as [|x l IH]; simpl; [constructor|].
  now apply insert_sorted.
Qed.

Lemma filter_sorted (p : A -> bool) (l : list A) :
  StronglySorted (before cmp) l -> StronglySorted (before cmp) (filter p l).
Proof.
  induction 1 as [|x l Hl IH Hx]; simpl; [constructor|].
  destruct (p x); [|exact IH].
  constructor; [exact IH|].
  apply Forall_forall. intros y Hy. apply filter_In in Hy.
  eapply Forall_forall in Hx; [exact Hx | tauto].
Qed.
End Ordered.
End SortFacts.

(** Sorting commutes with a map that the comparators cannot tell apart. *)
Lemma sort_map {A B : Type} (cA : A -> A -> Z) (cB : B -> B -> Z) (f : A -> B) :
  (forall a b, cB (f a) (f b) = cA a b) ->
  forall l, sort cB (map f l) = map f (sort cA l).
Proof.
  intros Hf. induction l as [|x l IH]; simpl; [reflexivity|].
  rewrite IH. clear IH. induction (sort cA l) as [|y s IHs]; simpl; [reflexivity|].
  rewrite Hf. destruct (cA x y <=? 0); simpl; [reflexivity|]. now rewrite IHs.
Qed.

Lemma StronglySorted_map {A B : Type} (R : B -> B -> Prop) (f : A -> B) (l : list A) :
  StronglySorted (fun a b => R (f a) (f b)) l -> StronglySorted R (map f l).
Proof.
  induction 1 as [|x l Hl IH Hx]; simpl; constructor; [exact IH|].
  apply Forall_map. exact Hx.
Qed.

(** Two arrangements of the same numbers in descending order coincide. *)
Lemma descending_unique (l1 l2 : list Z) :
  StronglySorted Z.ge l1 -> StronglySorted Z.ge l2 -> Permutation l1 l2 ->
  l1 = l2.
Proof.
  intros H1. revert l2. induction H1 as [|a l1 Hl1 IH Ha]; intros l2 H2 HP.
  - now apply Permutation_nil in HP.
  - destruct H2 as [|b l2 Hl2 Hb].
    + symmetry in HP. now apply Permutation_nil in HP.
    + assert (a = b) as ->.
      { assert (In a (b :: l2)) as [->|Ia]
          by (eapply Permutation_in; [exact HP | now left]); [reflexivity|].
        assert (In b (a :: l1)) as [->|Ib]
          by (eapply Permutation_in; [symmetry; exact HP | now left]);
          [reflexivity|].
        eapply Forall_forall in Ha; [|exact Ib].
        eapply Forall_forall in Hb; [|exact Ia]. lia. }
      f_equal. apply IH; [exact Hl2|]. eapply Permutation_cons_inv, HP.
Qed.

(** ** The merged view *)

Lemma bySessionLog_viewOrder (a b : SessionView) :
  before bySessionLog a b <-> viewOrder a b.
Proof.
  unfold before, bySessionLog, viewOrder, isSignedIn.
  destruct (v_status a), (v_status b); simpl; split; intros Hab;
    try lia; try (now left); try (right; split; [reflexivity | lia]);
    destruct Hab as [[? ?]|[? ?]]; try discriminate; lia.
Qed.

#[local] Instance bySessionLog_consistent : Consistent bySessionLog.
Proof.
  split.
  - intros a b. unfold bySessionLog, isSignedIn.
    destruct (v_status a), (v_status b); simpl; lia.
  - intros a b c. unfold bySessionLog, isSignedIn.
    destruct (v_status a), (v_status b), (v_status c); simpl; lia.
Qed.

Lemma StronglySorted_impl {A : Type} (R S : A -> A -> Prop) (l : list A) :
  (forall a b, R a b -> S a b) -> StronglySorted R l -> StronglySorted S l.
Proof.
  intros HRS. induction 1 as [|x l Hl IH Hx]; constructor; [exact IH|].
  eapply Forall_impl; [|exact Hx]. intros b. apply HRS.
Qed.

Lemma sessionLog_perm (st : State) :
  Permutation (sessionLog st)
    (map viewOfActive (activeSessions st) ++ map viewOfLog (attendanceLog st)).
Proof. apply sort_perm. Qed.

Lemma sessionLog_sorted (st : State) : StronglySorted viewOrder (sessionLog st).
Proof.
  eapply StronglySorted_impl; [|apply sort_sorted; exact bySessionLog_consistent].
  intros a b. apply bySessionLog_viewOrder.
Qed.

(** Present members never compare after departed ones, so the merged view
    is the sorted active sessions followed by the sorted log. *)
Lemma sessionLog_split (st : State) :
  sessionLog st =
  sort bySessionLog (map viewOfActive (activeSessions st)) ++
  sort bySessionLog (map viewOfLog (attendanceLog st)).
Proof.
  unfold sessionLog. apply sort_app.
  intros a b Ha Hb. apply in_map_iff in Ha as (s & <- & _).
  apply in_map_iff in Hb as (e & <- & _). apply bySessionLog_viewOrder.
  now left.
Qed.

(** C1. For every state the merged view holds exactly the active sessions,
    each with no sign-out time and the status signed in, and the log
    entries, each with its sign-out time and the status signed out; it is
    ordered so that signed-in entries precede signed-out ones and, within
    one status, later sign-in times come first. With one active session and
    one log entry the active session is first, whichever sign-in time is
    the earlier, so also when the log entry's is. *)
Theorem sessionLog_merged_and_ordered (st : State) :
  Permutation (sessionLog st)
    (map viewOfActive (activeSessions st) ++ map viewOfLog (attendanceLog st))
  /\ (forall s, In s (activeSessions st) ->
        In {| v_name := s_name s; v_signInTime := s_signInTime s;
              v_signOutTime := None; v_status := SignedIn |} (sessionLog st))
  /\ (forall e, In e (attendanceLog st) ->
        In {| v_name := e_name e; v_signInTime := e_signInTime e;
              v_signOutTime := Some (e_signOutTime e);
              v_status := SignedOut |} (sessionLog st))
  /\ StronglySorted viewOrder (sessionLog st)
  /\ (forall s e,
        activeSessions st = [s] -> attendanceLog st = [e] ->
        sessionLog st = [viewOfActive s; viewOfLog e]).
Proof.
  split; [apply sessionLog_perm|].
  split.
  { intros s Hs. eapply Permutation_in; [symmetry; apply sessionLog_perm|].
    apply in_or_app. left. apply (in_map viewOfActive _ _ Hs). }
  split.
  { intros e He. eapply Permutation_in; [symmetry; apply sessionLog_perm|].
    apply in_or_app. right. apply (in_map viewOfLog _ _ He). }
  split; [apply sessionLog_sorted|].
  intros s e Hs He. rewrite sessionLog_split, Hs, He. reflexivity.
Qed.


Lemma sessionLog_merged_and_ordered_witness :
  activeSessions oneEach = [{| s_name := andres; s_signInTime := 4 |}]
  /\ attendanceLog oneEach =
       [{| e_name := barry; e_signInTime := 1; e_signOutTime := 3 |}]
  /\ e_signInTime {| e_name := barry; e_signInTime := 1; e_signOutTime := 3 |}
       < s_signInTime {| s_name := andres; s_signInTime := 4 |}
  /\ sessionLog oneEach =
       [{| v_name := andres; v_signInTime := 4; v_signOutTime := None;
           v_status := SignedIn |};
        {| v_name := barry; v_signInTime := 1; v_signOutTime := Some 3;
           v_status := SignedOut |}].
Proof.
  assert (Ha : activeSessions oneEach
               = [{| s_name := andres; s_signInTime := 4 |}])
    by (vm_compute; reflexivity).
  assert (Hl : attendanceLog oneEach
               = [{| e_name := barry; e_signInTime := 1; e_signOutTime := 3 |}])
    by (vm_compute; reflexivity).
  split; [exact Ha|]. split; [exact Hl|]. split; [simpl; lia|].
  destruct (sessionLog_merged_and_ordered oneEach) as (_ & _ & _ & _ & Hfirst).
  apply (Hfirst _ _ Ha Hl).
Defined.

(** ** Signing in *)

Section SignIn.
Context `{Host}.



Lemma handleSignIn_sessions (st : State) (now tid : Z) :
  signInMemberName st <> [] ->
  activeSessions (handleSignIn now tid st) =
  sort bySessionName
    (activeSessions st ++
     [{| s_name := signInMemberName st; s_signInTime := now |}]).
Proof.
  intros Hn. unfold handleSignIn. apply isEmpty_false in Hn. now rewrite Hn.
Qed.

Lemma handleSignIn_adds (st : State) (now tid : Z) :
  signInMemberName st <> [] ->
  Permutation (activeSessions (handleSignIn now tid st))
    ({| s_name := signInMemberName st; s_signInTime := now |}
       :: activeSessions st).
Proof.
  intros Hn. rewrite handleSignIn_sessions by exact Hn.
  rewrite sort_perm. symmetry. apply Permutation_cons_append.
Qed.

Lemma available_not_active (st : State) (m : Member) :
  In m (availableMembersForSignIn st) ->
  In m (members st) /\ hasActiveSession (m_name m) st = false.
Proof.
  unfold availableMembersForSignIn. rewrite filter_In.
  intros [Hm Hf]. split; [exact Hm|]. now apply negb_true_iff in Hf.
Qed.


End SignIn.


Section SignInDialog.
Context `{Host}.






End SignInDialog.



(** ** Invariants along a run *)

Section Runs.
Context `{Host}.

Lemma run_invariant (I : Z -> State -> Prop) :
  (forall t st ev, I t st -> ticks t (readings ev) = true ->
                   I (clockAfter t ev) (step ev st)) ->
  forall evs t st t' st',
    run t evs st = Some (t', st') -> I t st -> I t' st'.
Proof.
  intros Hstep. induction evs as [|ev evs IH]; simpl; intros t st t' st' Hrun HI.
  - now inversion Hrun; subst.
  - destruct (ticks t (readings ev)) eqn:Ht; [|discriminate].
    eapply IH; [exact Hrun|]. now apply Hstep.
Qed.

Lemma reachableAt_invariant (I : Z -> State -> Prop) :
  (forall t, I t initialState) ->
  (forall t st ev, I t st -> ticks t (readings ev) = true ->
                   I (clockAfter t ev) (step ev st)) ->
  forall t st, reachableAt t st -> I t st.
Proof.
  intros Hinit Hstep t st (t0 & evs & Hrun).
  eapply run_invariant; [exact Hstep | exact Hrun | apply Hinit].
Qed.

Lemma ticks_clockAfter (t : Z) (ev : Event) :
  ticks t (readings ev) = true -> t <= clockAfter t ev.
Proof.
  unfold clockAfter. destruct ev; simpl; rewrite ?andb_true_iff, ?Z.leb_le; lia.
Qed.

Lemma Forall_sort {A : Type} (cmp : A -> A -> Z) (P : A -> Prop) (l : list A) :
  Forall P l -> Forall P (sort cmp l).
Proof. apply Permutation_Forall. symmetry. apply sort_perm. Qed.

Lemma Forall_filter {A : Type} (p : A -> bool) (P : A -> Prop) (l : list A) :
  Forall P l -> Forall P (filter p l).
Proof.
  rewrite !Forall_forall. intros HP x Hx. apply filter_In in Hx. now apply HP.
Qed.

Lemma started_by_weaken (t t' : Z) (l : list ActiveSession) :
  t <= t' -> Forall (fun s => s_signInTime s <= t) l ->
  Forall (fun s => s_signInTime s <= t') l.
Proof. intros Ht. apply Forall_impl. intros s. lia. Qed.

Lemma Forall_renameSessionIn (o n : jsstring) (t : Z) (l : list ActiveSession) :
  Forall (fun s => s_signInTime s <= t) l ->
  Forall (fun s => s_signInTime s <= t) (map (renameSessionIn o n) l).
Proof.
  intros Hl. apply Forall_map. eapply Forall_impl; [|exact Hl].
  intros s. unfold renameSessionIn. now destruct (jsstring_eqb (s_name s) o).
Qed.

Lemma Forall_renameEntryIn (o n : jsstring) (l : list LogEntry) :
  Forall completed l -> Forall completed (map (renameEntryIn o n) l).
Proof.
  intros Hl. apply Forall_map. eapply Forall_impl; [|exact Hl].
  intros e. unfold renameEntryIn. now destruct (jsstring_eqb (e_name e) o).
Qed.

Lemma handleSignIn_clockInvariant (t now tid : Z) (st : State) :
  clockInvariant t st -> t <= now -> now <= tid ->
  clockInvariant tid (handleSignIn now tid st).
Proof.
  intros [Ha Hl] Ht Hn. unfold handleSignIn.
  destruct (isEmpty (signInMemberName st)).
  - split; [|exact Hl]. eapply started_by_weaken; [|exact Ha]. lia.
  - split; simpl; [|exact Hl]. apply Forall_sort, Forall_app. split.
    + eapply started_by_weaken; [|exact Ha]. lia.
    + repeat constructor. simpl. lia.
Qed.

Lemma handleSignOut_clockInvariant (name : jsstring) (t now tid : Z) (st : State) :
  clockInvariant t st -> t <= now -> now <= tid ->
  clockInvariant tid (handleSignOut name now tid st).
Proof.
  intros [Ha Hl] Ht Hn. unfold handleSignOut.
  destruct (find _ (activeSessions st)) as [s|] eqn:Hf.
  - apply find_some in Hf as [Hs _]. split; simpl.
    + apply Forall_filter. eapply started_by_weaken; [|exact Ha]. lia.
    + constructor; [|exact Hl]. unfold completed. simpl.
      eapply Forall_forall in Ha; [|exact Hs]. simpl in Ha. lia.
  - split; [|exact Hl]. eapply started_by_weaken; [|exact Ha]. lia.
Qed.

Lemma handleSaveMember_clockInvariant (t tid : Z) (st : State) :
  clockInvariant t st -> t <= tid ->
  clockInvariant tid (handleSaveMember tid st).
Proof.
  intros [Ha Hl] Ht.
  assert (Ha' := started_by_weaken t tid _ Ht Ha).
  unfold handleSaveMember.
  destruct (isEmpty _); [now split|]. destruct (isDuplicate _ _); [now split|].
  destruct (modalMode st) as [[|]|]; [now split| |now split].
  destruct (memberToEdit st) as [edited|]; [|now split].
  split; simpl.
  - now apply Forall_sort, Forall_renameSessionIn.
  - now apply Forall_renameEntryIn.
Qed.

Lemma handleConfirm_clockInvariant (t now : Z) (st : State) :
  clockInvariant t st -> t <= now -> clockInvariant now (handleConfirm now st).
Proof.
  intros [Ha Hl] Ht.
  assert (Ha' := started_by_weaken t now _ Ht Ha).
  unfold handleConfirm. destruct (cm_onConfirm (confirmModalProps st));
    split; simpl; trivial; try constructor; now apply Forall_filter.
Qed.

Lemma step_clockInvariant (t : Z) (st : State) (ev : Event) :
  clockInvariant t st -> ticks t (readings ev) = true ->
  clockInvariant (clockAfter t ev) (step ev st).
Proof.
  intros HI Ht. pose proof (ticks_clockAfter t ev Ht) as Hle.
  destruct ev; unfold clockAfter in *; simpl in Ht, Hle |- *;
    rewrite ?andb_true_iff, ?Z.leb_le in Ht;
    try (destruct HI as [Ha Hl]; split; simpl; trivial;
         try constructor; fail).
  - (* SignIn *) apply (handleSignIn_clockInvariant t); [exact HI|lia|lia].
  - (* SignOut *) apply (handleSignOut_clockInvariant _ t); [exact HI|lia|lia].
  - (* OpenAddEditModal *)
    destruct HI as [Ha Hl]. unfold openAddEditModal.
    destruct mode, member; split; simpl; trivial.
  - (* SaveMember *) apply (handleSaveMember_clockInvariant t); [exact HI|lia].
  - (* DeleteMember *)
    unfold handleDeleteMember. destruct (memberToEdit st); exact HI.
  - (* Confirm *) apply (handleConfirm_clockInvariant t); [exact HI|lia].
  - (* OpenNewTaskModal *)
    destruct HI as [Ha Hl]. unfold openNewTaskModal.
    destruct (_ || _); split; simpl; trivial;
      eapply started_by_weaken; try exact Ha; lia.
  - (* StartNewTask *)
    destruct HI as [Ha Hl]. unfold handleStartNewTask.
    destruct (isEmpty _); split; simpl; trivial; try constructor.
    eapply started_by_weaken; try exact Ha; lia.
  - (* ClearLog *)
    unfold handleClearLog. destruct (_ && _); exact HI.
  - (* DownloadLog *)
    destruct HI as [Ha Hl]. split; simpl; trivial.
    eapply started_by_weaken; try exact Ha; lia.
Qed.

Lemma reachableAt_clockInvariant (t : Z) (st : State) :
  reachableAt t st -> clockInvariant t st.
Proof.
  apply reachableAt_invariant.
  - intros t0. split; constructor.
  - apply step_clockInvariant.
Qed.

End Runs.

(** ** Signing out *)

(** C3, refuted as stated: a member signed in and out within one clock
    tick leaves a log entry whose two times are equal. *)
Lemma same_tick_entry_not_strictly_later :
  (exists st,
     run (H := plainHost) 0 sameTickTrace startState = Some (5, st) /\
     attendanceLog st =
       [{| e_name := andres; e_signInTime := 5; e_signOutTime := 5 |}])
  /\ ~ (forall st, reachable (H := plainHost) st ->
                   Forall strictlyCompleted (attendanceLog st)).
Proof.
  assert (Hrun : run (H := plainHost) 0 sameTickTrace startState
                 = Some (5, sameTickState)) by (vm_compute; reflexivity).
  split.
  - exists sameTickState. split; [exact Hrun | vm_compute; reflexivity].
  - intros Hall.
    assert (Hreach : reachable (H := plainHost) sameTickState)
      by (exists 5, 0, sameTickTrace; exact Hrun).
    apply Hall in Hreach. vm_compute in Hreach.
    inversion Hreach as [|e l He _]; subst. discriminate He.
Qed.

(** C3, amended. In every state reached with a clock that never runs
    backwards, every log entry's sign-out time is at or after its sign-in
    time; the two may coincide. *)
Theorem log_entries_completed `{Host} (t : Z) (st : State) :
  reachableAt t st -> Forall completed (attendanceLog st).
Proof. intros Hr. exact (proj2 (reachableAt_clockInvariant t st Hr)). Qed.

Lemma log_entries_completed_witness :
  reachableAt (H := plainHost) 5 sameTickState /\
  Forall completed (attendanceLog sameTickState).
Proof.
  assert (Hr : reachableAt (H := plainHost) 5 sameTickState)
    by (exists 0, sameTickTrace; vm_compute; reflexivity).
  split; [exact Hr|].
  exact (log_entries_completed (H := plainHost) 5 sameTickState Hr).
Defined.

Section SignOut.
Context `{Host}.

Lemma find_none_not_active (name : jsstring) (st : State) :
  hasActiveSession name st = false <->
  find (fun s => jsstring_eqb (s_name s) name) (activeSessions st) = None.
Proof.
  unfold hasActiveSession.
  induction (activeSessions st) as [|s l IH]; simpl; [tauto|].
  destruct (jsstring_eqb (s_name s) name); simpl; [split; discriminate|exact IH].
Qed.

Lemma filter_removes_name (name : jsstring) (l : list ActiveSession) :
  existsb (fun s => jsstring_eqb (s_name s) name)
    (filter (fun s => negb (jsstring_eqb (s_name s) name)) l) = false.
Proof.
  induction l as [|s l IH]; simpl; [reflexivity|].
  destruct (jsstring_eqb (s_name s) name) eqn:E; simpl; [exact IH|].
  now rewrite E.
Qed.

End SignOut.

(** C4, refuted as stated: the sign-out time is whatever the clock reads,
    with no comparison; a sign-out that reads the clock before the reading
    of the sign-in leaves an entry that ends before it starts. *)
Lemma sign_out_reading_before_sign_in :
  hasActiveSession andres andresSignedIn = true
  /\ attendanceLog (handleSignOut andres 0 0 andresSignedIn)
     = [{| e_name := andres; e_signInTime := 1; e_signOutTime := 0 |}]
  /\ ~ completed {| e_name := andres; e_signInTime := 1; e_signOutTime := 0 |}.
Proof.
  split; [vm_compute; reflexivity|]. split; [vm_compute; reflexivity|].
  unfold completed. simpl. lia.
Qed.

(** C4, amended. Signing out a name without an active session changes
    nothing. Otherwise the first active session of that name is ended: no
    session of that name remains and the other sessions stay as they were,
    and one entry with the session's name and sign-in time and the current
    time as sign-out time is put in front of the log. The sign-out time is
    at or after the sign-in time when the state was reached with a clock
    that never ran backwards and the sign-out reads it no earlier than its
    last reading [t]. *)
Theorem handleSignOut_ends_session `{Host} (st : State) (name : jsstring)
    (now tid : Z) :
  (hasActiveSession name st = false -> handleSignOut name now tid st = st)
  /\ (hasActiveSession name st = true ->
      exists s,
        find (fun s => jsstring_eqb (s_name s) name) (activeSessions st) = Some s
        /\ s_name s = name
        /\ activeSessions (handleSignOut name now tid st) =
             filter (fun s => negb (jsstring_eqb (s_name s) name))
                    (activeSessions st)
        /\ hasActiveSession name (handleSignOut name now tid st) = false
        /\ attendanceLog (handleSignOut name now tid st) =
             {| e_name := name; e_signInTime := s_signInTime s;
                e_signOutTime := now |} :: attendanceLog st
        /\ (forall t, reachableAt t st -> t <= now -> s_signInTime s <= now)).
Proof.
  split.
  - intros Hn. apply find_none_not_active in Hn.
    unfold handleSignOut. now rewrite Hn.
  - intros Ha.
    destruct (find (fun s => jsstring_eqb (s_name s) name) (activeSessions st))
      as [s|] eqn:Hf.
    2:{ apply find_none_not_active in Hf. congruence. }
    exists s. split; [reflexivity|].
    pose proof (find_some _ _ Hf) as [Hin Heq]. apply jsstring_eqb_eq in Heq.
    split; [exact Heq|].
    unfold handleSignOut. rewrite Hf. simpl.
    split; [reflexivity|].
    split; [apply filter_removes_name|].
    split; [now rewrite Heq|].
    intros t Hr Ht. apply reachableAt_clockInvariant in Hr as [Hs _].
    eapply Forall_forall in Hs; [|exact Hin]. simpl in Hs. lia.
Qed.

Lemma handleSignOut_ends_session_witness :
  (hasActiveSession andres startState = false /\
   handleSignOut andres 2 2 startState = startState)
  /\ (hasActiveSession andres andresSignedIn = true /\
      attendanceLog (handleSignOut andres 2 2 andresSignedIn) =
        [{| e_name := andres; e_signInTime := 1; e_signOutTime := 2 |}])
  /\ (reachableAt (H := plainHost) 1 andresSignedIn /\ 1 <= 2 /\
      completed {| e_name := andres; e_signInTime := 1; e_signOutTime := 2 |}).
Proof.
  assert (Hact : hasActiveSession andres andresSignedIn = true)
    by (vm_compute; reflexivity).
  destruct (proj2 (handleSignOut_ends_session (H := plainHost)
                     andresSignedIn andres 2 2) Hact)
    as (s & Hf & _ & _ & _ & Hlog & Htime).
  assert (Hs : s = {| s_name := andres; s_signInTime := 1 |})
    by (vm_compute in Hf; now injection Hf as <-).
  split; [|split].
  - split; [vm_compute; reflexivity|].
    exact (proj1 (handleSignOut_ends_session (H := plainHost)
                    startState andres 2 2) eq_refl).
  - split; [exact Hact|]. rewrite Hlog, Hs. reflexivity.
  - assert (Hr : reachableAt (H := plainHost) 1 andresSignedIn)
      by (exists 0, [SelectSignInMember andres; SignIn 1 1];
          vm_compute; reflexivity).
    split; [exact Hr|]. split; [lia|].
    unfold completed. simpl. specialize (Htime 1 Hr). rewrite Hs in Htime.
    simpl in Htime. lia.
Defined.

(** ** The host used in the scenarios is lawful *)

Lemma compareUnits_total (a b : jsstring) :
  compareUnits a b <= 0 \/ compareUnits b a <= 0.
Proof.
  revert b. induction a as [|c a IH]; intros [|d b]; simpl; try lia.
  destruct (c <? d)%N eqn:Hcd; [lia|].
  destruct (d <? c)%N eqn:Hdc; [lia|]. apply IH.
Qed.

Lemma compareUnits_trans (a b c : jsstring) :
  compareUnits a b <= 0 -> compareUnits b c <= 0 -> compareUnits a c <= 0.
Proof.
  revert b c. induction a as [|x a IH]; intros [|y b] [|z c]; simpl; try lia.
  destruct (x <? y)%N eqn:Hxy, (y <? x)%N eqn:Hyx,
           (y <? z)%N eqn:Hyz, (z <? y)%N eqn:Hzy,
           (x <? z)%N eqn:Hxz, (z <? x)%N eqn:Hzx;
    rewrite ?N.ltb_lt, ?N.ltb_ge in *; try lia.
  apply IH.
Qed.

Lemma plainHost_laws : HostLaws plainHost.
Proof. split; [exact compareUnits_total | exact compareUnits_trans]. Qed.

(** ** The roster *)

Section Roster.
Context `{HL : HostLaws}.

#[local] Instance byMemberName_consistent : Consistent byMemberName.
Proof.
  split; unfold byMemberName.
  - intros a b. apply cmp_total.
  - intros a b c. apply cmp_trans.
Qed.

#[local] Instance bySessionName_consistent : Consistent bySessionName.
Proof.
  split; unfold bySessionName.
  - intros a b. apply cmp_total.
  - intros a b c. apply cmp_trans.
Qed.

Lemma members_in_nameOrder (l : list Member) :
  StronglySorted (before byMemberName) l ->
  StronglySorted nameOrder (map m_name l).
Proof. intros Hs. apply StronglySorted_map. exact Hs. Qed.

Lemma sessions_in_nameOrder (l : list ActiveSession) :
  StronglySorted (before bySessionName) l ->
  StronglySorted nameOrder (map s_name l).
Proof. intros Hs. apply StronglySorted_map. exact Hs. Qed.

Lemma sortedPredefinedMembers_sorted :
  StronglySorted (before byMemberName) sortedPredefinedMembers.
Proof. apply sort_sorted. exact byMemberName_consistent. Qed.

Lemma isDuplicate_add (name : jsstring) (st : State) :
  modalMode st = Some add ->
  isDuplicate name st = true <->
  exists m, In m (members st) /\ toLowerCase (m_name m) = toLowerCase name.
Proof.
  intros Hmode. unfold isDuplicate. rewrite Hmode. simpl.
  rewrite existsb_exists. split; intros (m & Hm & Hd); exists m; split; trivial.
  - rewrite andb_true_r in Hd. now apply jsstring_eqb_eq.
  - rewrite andb_true_r. now apply jsstring_eqb_eq.
Qed.

Lemma isDuplicate_add_false (name : jsstring) (st : State) :
  modalMode st = Some add ->
  (forall m, In m (members st) -> toLowerCase (m_name m) <> toLowerCase name) ->
  isDuplicate name st = false.
Proof.
  intros Hmode Hno. destruct (isDuplicate name st) eqn:Hd; [|reflexivity].
  apply isDuplicate_add in Hd as (m & Hm & Heq); [|exact Hmode].
  now apply Hno in Hm.
Qed.

Lemma handleSaveMember_add_members (st : State) (tid : Z) :
  modalMode st = Some add ->
  trim (memberNameInput st) <> [] ->
  isDuplicate (trim (memberNameInput st)) st = false ->
  handleSaveMember tid st =
  (st |> setMembers (sort byMemberName
                       (members st ++ [{| m_name := trim (memberNameInput st) |}]))
      |> addToast (lit "New member added.") success tid
      |> closeAddEditModal).
Proof.
  intros Hmode Hne Hd. unfold handleSaveMember.
  apply isEmpty_false in Hne. now rewrite Hne, Hd, Hmode.
Qed.

End Roster.

(** C5. Adding a member trims the input. An empty trimmed name, or one
    whose lower-case form is that of a member's name, is refused with a
    validation error and nothing but the error text changes. Otherwise the
    roster gains one member with exactly the trimmed name and its names
    stand in the order of [localeCompare]: none is after a later one. After
    a successful addition, adding a name of the same lower-case form is
    refused as a duplicate. *)
Theorem handleSaveMember_add `{HL : HostLaws} (st : State) (tid : Z) :
  modalMode st = Some add ->
  (trim (memberNameInput st) = [] ->
     rejected EmptyName st (handleSaveMember tid st))
  /\ (trim (memberNameInput st) <> [] ->
      (exists m, In m (members st) /\
         toLowerCase (m_name m) = toLowerCase (trim (memberNameInput st))) ->
      rejected DuplicateName st (handleSaveMember tid st))
  /\ (trim (memberNameInput st) <> [] ->
      (forall m, In m (members st) ->
         toLowerCase (m_name m) <> toLowerCase (trim (memberNameInput st))) ->
      Permutation (members (handleSaveMember tid st))
        ({| m_name := trim (memberNameInput st) |} :: members st)
      /\ In {| m_name := trim (memberNameInput st) |}
            (members (handleSaveMember tid st))
      /\ StronglySorted nameOrder
           (map m_name (members (handleSaveMember tid st)))
      /\ error (handleSaveMember tid st) = []
      /\ (forall input2 tid2,
            trim input2 <> [] ->
            toLowerCase (trim input2) = toLowerCase (trim (memberNameInput st)) ->
            rejected DuplicateName
              (handleSaveMember tid st |> openAddEditModal add None
                                       |> setMemberNameInput input2)
              (addMember input2 tid2 (handleSaveMember tid st)))).
Proof.
  intros Hmode. split; [|split].
  - intros He. unfold rejected, handleSaveMember. now rewrite He.
  - intros Hne Hdup. apply (isDuplicate_add _ _ Hmode) in Hdup.
    apply isEmpty_false in Hne.
    unfold rejected, handleSaveMember. now rewrite Hne, Hdup.
  - intros Hne Hfresh.
    pose proof (isDuplicate_add_false _ _ Hmode Hfresh) as Hd.
    rewrite (handleSaveMember_add_members st tid Hmode Hne Hd). simpl.
    assert (HP : Permutation
                   (sort byMemberName
                      (members st ++ [{| m_name := trim (memberNameInput st) |}]))
                   ({| m_name := trim (memberNameInput st) |} :: members st)).
    { rewrite sort_perm. symmetry. apply Permutation_cons_append. }
    split; [exact HP|].
    split; [eapply Permutation_in; [symmetry; exact HP | now left]|].
    split; [apply members_in_nameOrder, sort_sorted;
            exact byMemberName_consistent|].
    split; [reflexivity|].
    intros input2 tid2 Hne2 Hsame. unfold rejected, addMember.
    unfold handleSaveMember at 1. simpl.
    apply isEmpty_false in Hne2. rewrite Hne2.
    replace (isDuplicate (trim input2) _) with true; [reflexivity|].
    symmetry. apply isDuplicate_add; [reflexivity|]. simpl.
    exists {| m_name := trim (memberNameInput st) |}. split; [|now rewrite Hsame].
    eapply Permutation_in; [symmetry; exact HP | now left].
Qed.

Lemma handleSaveMember_add_witness :
  modalMode bobDialog = Some add
  /\ trim (memberNameInput bobDialog) = lit "Bob Marley"
  /\ firstn 6 (map m_name (members (handleSaveMember (H := plainHost) 7 bobDialog)))
     = [andres; barry; lit "Ben Peach"; lit "Bill Sperling"; lit "Bob Marley";
        lit "Brad Siemens"]
  /\ length (members (handleSaveMember (H := plainHost) 7 bobDialog)) = 42%nat
  /\ StronglySorted (nameOrder (H := plainHost))
       (map m_name (members (handleSaveMember (H := plainHost) 7 bobDialog)))
  /\ rejected DuplicateName
       (handleSaveMember (H := plainHost) 7 bobDialog
          |> openAddEditModal add None
          |> setMemberNameInput (lit "BOB MARLEY"))
       (addMember (H := plainHost) (lit "BOB MARLEY") 8
          (handleSaveMember (H := plainHost) 7 bobDialog)).
Proof.
  split; [reflexivity|]. split; [vm_compute; reflexivity|].
  split; [vm_compute; reflexivity|]. split; [vm_compute; reflexivity|].
  destruct (handleSaveMember_add (H := plainHost) (HL := plainHost_laws)
              bobDialog 7 eq_refl) as (_ & _ & Hadd).
  destruct Hadd as (_ & _ & Hsorted & _ & Htwice).
  - vm_compute. discriminate.
  - intros m Hm. vm_compute in Hm.
    repeat (destruct Hm as [<-|Hm]; [vm_compute; discriminate|]).
    destruct Hm.
  - split; [exact Hsorted|].
    apply Htwice; [vm_compute; discriminate | vm_compute; reflexivity].
Defined.

Lemma map_member_eta (l : list Member) :
  map (fun member => {| m_name := m_name member |}) l = l.
Proof.
  induction l as [|[n] l IH]; simpl; [reflexivity|]. now rewrite IH.
Qed.

(** C7. Replacing the roster leaves as members exactly the given list,
    sorted by the locale's collation, and leaves no active session and no
    log entry, whatever the state was. *)
Theorem replaceRoster_resets `{HL : HostLaws} (st : State)
    (newMembers : list Member) (tid : Z) :
  Permutation (members (replaceRoster newMembers tid st)) newMembers
  /\ StronglySorted (before byMemberName)
       (members (replaceRoster newMembers tid st))
  /\ activeSessions (replaceRoster newMembers tid st) = []
  /\ attendanceLog (replaceRoster newMembers tid st) = []
  /\ handleSaveMemberList tid st = replaceRoster (editingMemberList st) tid st.
Proof.
  unfold replaceRoster, handleSaveMemberList. simpl.
  rewrite map_member_eta.
  split; [apply sort_perm|].
  split; [apply sort_sorted; exact byMemberName_consistent|].
  repeat split.
Qed.

Lemma replaceRoster_resets_witness :
  members (replaceRoster (H := plainHost) shortRoster 9 andresSignedIn)
    = [{| m_name := lit "Alice" |}; {| m_name := lit "Bob" |}]
  /\ StronglySorted (before (byMemberName (H := plainHost)))
       (members (replaceRoster (H := plainHost) shortRoster 9 andresSignedIn))
  /\ activeSessions (replaceRoster (H := plainHost) shortRoster 9 andresSignedIn)
     = [].
Proof.
  split; [vm_compute; reflexivity|].
  destruct (replaceRoster_resets (H := plainHost) (HL := plainHost_laws)
              andresSignedIn shortRoster 9) as (_ & Hs & Ha & _).
  split; [exact Hs | exact Ha].
Defined.

(** ** The roster stays sorted *)

Section RosterSorted.
Context `{HL : HostLaws}.

Lemma handleSaveMember_rosterSorted (tid : Z) (st : State) :
  rosterSorted st -> rosterSorted (handleSaveMember tid st).
Proof.
  unfold rosterSorted, handleSaveMember. intros Hs.
  destruct (isEmpty _); [exact Hs|]. destruct (isDuplicate _ _); [exact Hs|].
  destruct (modalMode st) as [[|]|]; simpl; [| |exact Hs].
  - apply sort_sorted. exact byMemberName_consistent.
  - destruct (memberToEdit st); simpl; [|exact Hs].
    apply sort_sorted. exact byMemberName_consistent.
Qed.

Lemma handleConfirm_rosterSorted (now : Z) (st : State) :
  rosterSorted st -> rosterSorted (handleConfirm now st).
Proof.
  unfold rosterSorted, handleConfirm. intros Hs.
  destruct (cm_onConfirm (confirmModalProps st)); simpl; try exact Hs.
  apply filter_sorted; first [exact byMemberName_consistent | exact Hs].
Qed.

Lemma step_rosterSorted (ev : Event) (st : State) :
  rosterSorted st -> rosterSorted (step ev st).
Proof.
  intros Hs. destruct ev; simpl; try exact Hs.
  - (* SignIn *)
    unfold rosterSorted, handleSignIn. now destruct (isEmpty _).
  - (* SignOut *)
    unfold rosterSorted, handleSignOut. now destruct (find _ _).
  - (* OpenAddEditModal *)
    unfold rosterSorted, openAddEditModal. now destruct mode, member.
  - (* SaveMember *) now apply handleSaveMember_rosterSorted.
  - (* DeleteMember *)
    unfold rosterSorted, handleDeleteMember. now destruct (memberToEdit st).
  - (* Confirm *) now apply handleConfirm_rosterSorted.
  - (* SaveMemberList *)
    unfold rosterSorted. simpl. apply sort_sorted. exact byMemberName_consistent.
  - (* OpenNewTaskModal *)
    unfold rosterSorted, openNewTaskModal. now destruct (_ || _).
  - (* StartNewTask *)
    unfold rosterSorted, handleStartNewTask. now destruct (isEmpty _).
  - (* ClearLog *)
    unfold rosterSorted, handleClearLog. now destruct (_ && _).
Qed.

End RosterSorted.

Lemma afterAll_rosterSorted `{HL : HostLaws} (evs : list Event) (st : State) :
  rosterSorted st -> rosterSorted (afterAll evs st).
Proof.
  unfold afterAll. revert st.
  induction evs as [|ev evs IH]; intros st Hs; simpl; [exact Hs|].
  apply IH. now apply step_rosterSorted.
Qed.

(** C10. After every sequence of actions from the first render, whatever
    the clock showed, and so in every reachable state, the names of the
    roster stand in the order of [localeCompare], none after a later one:
    the first roster is in that order, and adding, renaming, deleting and
    replacing keep or restore it. *)
Theorem roster_always_sorted `{HL : HostLaws} :
  (forall evs,
     StronglySorted nameOrder
       (map m_name (members (afterAll evs initialState))))
  /\ (forall st, reachable st ->
        StronglySorted nameOrder (map m_name (members st))).
Proof.
  split.
  - intros evs. apply members_in_nameOrder.
    apply (afterAll_rosterSorted evs initialState).
    apply sortedPredefinedMembers_sorted.
  - intros st [t Hr]. apply members_in_nameOrder. revert t st Hr.
    apply (reachableAt_invariant (fun _ st => rosterSorted st)).
    + intros _. apply sortedPredefinedMembers_sorted.
    + intros t st ev Hs _. now apply step_rosterSorted.
Qed.

Lemma roster_always_sorted_witness :
  reachable (H := plainHost) rosterWorked
  /\ firstn 4 (map m_name (members rosterWorked))
     = [lit "Bill Sperling"; lit "Bob Marley"; lit "Brad Siemens";
        lit "Brennan Zorn"]
  /\ last (map m_name (members rosterWorked)) [] = lit "Zed"
  /\ length (members rosterWorked) = 40%nat
  /\ StronglySorted (nameOrder (H := plainHost))
       (map m_name (members rosterWorked)).
Proof.
  assert (Hr : reachable (H := plainHost) rosterWorked)
    by (exists 4, 0, rosterWorkedTrace; vm_compute; reflexivity).
  split; [exact Hr|]. split; [vm_compute; reflexivity|].
  split; [vm_compute; reflexivity|]. split; [vm_compute; reflexivity|].
  exact (proj2 (roster_always_sorted (H := plainHost) (HL := plainHost_laws))
           rosterWorked Hr).
Defined.

(** ** Renaming a member *)

Section Rename.
Context `{HL : HostLaws}.

Lemma isDuplicate_edit_false (name : jsstring) (edited : Member) (st : State) :
  modalMode st = Some edit -> memberToEdit st = Some edited ->
  (forall m, In m (members st) ->
     toLowerCase (m_name m) = toLowerCase name -> m_name m = m_name edited) ->
  isDuplicate name st = false.
Proof.
  intros Hmode Hed Hno. unfold isDuplicate. rewrite Hmode, Hed. simpl.
  destruct (existsb _ (members st)) eqn:Hd; [|reflexivity].
  apply existsb_exists in Hd as (m & Hm & Hd).
  apply andb_true_iff in Hd as [Hl Hn]. apply jsstring_eqb_eq in Hl.
  apply negb_true_iff, jsstring_eqb_neq in Hn. now apply Hno in Hl.
Qed.

Lemma handleSaveMember_edit (st : State) (tid : Z) (edited : Member) :
  modalMode st = Some edit -> memberToEdit st = Some edited ->
  trim (memberNameInput st) <> [] ->
  isDuplicate (trim (memberNameInput st)) st = false ->
  handleSaveMember tid st =
  (st |> setMembers
           (sort byMemberName
              (map (renameMemberIn (m_name edited) (trim (memberNameInput st)))
                   (members st)))
      |> setActiveSessions
           (sort bySessionName
              (map (renameSessionIn (m_name edited) (trim (memberNameInput st)))
                   (activeSessions st)))
      |> setAttendanceLog
           (map (renameEntryIn (m_name edited) (trim (memberNameInput st)))
                (attendanceLog st))
      |> addToast (lit "Member updated.") success tid
      |> closeAddEditModal).
Proof.
  intros Hmode Hed Hne Hd. unfold handleSaveMember.
  apply isEmpty_false in Hne. now rewrite Hne, Hd, Hmode, Hed.
Qed.

End Rename.

#[local] Instance byStart_consistent : Consistent byStart.
Proof. split; unfold byStart; intros; lia. Qed.

Lemma bySessionLog_viewOfActive (a b : ActiveSession) :
  bySessionLog (viewOfActive a) (viewOfActive b) = byStart a b.
Proof. reflexivity. Qed.

Lemma bySessionLog_renameViewIn (o n : jsstring) (a b : SessionView) :
  bySessionLog (renameViewIn o n a) (renameViewIn o n b) = bySessionLog a b.
Proof.
  unfold renameViewIn.
  now destruct (jsstring_eqb (v_name a) o), (jsstring_eqb (v_name b) o).
Qed.

Lemma viewOfActive_rename (o n : jsstring) (s : ActiveSession) :
  viewOfActive (renameSessionIn o n s) = renameViewIn o n (viewOfActive s).
Proof.
  unfold renameSessionIn, renameViewIn. simpl.
  now destruct (jsstring_eqb (s_name s) o).
Qed.

Lemma viewOfLog_rename (o n : jsstring) (e : LogEntry) :
  viewOfLog (renameEntryIn o n e) = renameViewIn o n (viewOfLog e).
Proof.
  unfold renameEntryIn, renameViewIn. simpl.
  now destruct (jsstring_eqb (e_name e) o).
Qed.

Lemma sansName_renameViewIn (o n : jsstring) (v : SessionView) :
  sansName (renameViewIn o n v) = sansName v.
Proof. unfold renameViewIn. now destruct (jsstring_eqb (v_name v) o). Qed.

Lemma s_signInTime_rename (o n : jsstring) (s : ActiveSession) :
  s_signInTime (renameSessionIn o n s) = s_signInTime s.
Proof. unfold renameSessionIn. now destruct (jsstring_eqb (s_name s) o). Qed.

(** The start times of the sorted active sessions, in the order the merged
    view shows them. *)
Lemma starts_descending (l : list ActiveSession) :
  StronglySorted Z.ge (map s_signInTime (sort byStart l)).
Proof.
  apply StronglySorted_map.
  eapply StronglySorted_impl; [|apply sort_sorted; exact byStart_consistent].
  intros a b. unfold before, byStart. lia.
Qed.

(** Apart from names, the signed-in part of the merged view depends only
    on the sign-in times that occur, not on the order of the sessions. *)
Lemma active_part_sansName (l1 l2 : list ActiveSession) :
  Permutation (map s_signInTime l1) (map s_signInTime l2) ->
  map sansName (sort bySessionLog (map viewOfActive l1)) =
  map sansName (sort bySessionLog (map viewOfActive l2)).
Proof.
  intros HP.
  rewrite !(sort_map byStart bySessionLog viewOfActive bySessionLog_viewOfActive).
  rewrite !map_map.
  change (fun x => sansName (viewOfActive x))
    with (fun x => (fun t : Z => (t, @None Z, SignedIn)) (s_signInTime x)).
  rewrite <- !(map_map s_signInTime (fun t : Z => (t, @None Z, SignedIn))).
  f_equal. apply descending_unique; try apply starts_descending.
  rewrite (Permutation_map s_signInTime (sort_perm byStart l1)).
  rewrite (Permutation_map s_signInTime (sort_perm byStart l2)). exact HP.
Qed.

Lemma log_part_sansName (o n : jsstring) (l : list LogEntry) :
  map sansName (sort bySessionLog (map viewOfLog (map (renameEntryIn o n) l))) =
  map sansName (sort bySessionLog (map viewOfLog l)).
Proof.
  rewrite map_map.
  rewrite (map_ext _ _ (viewOfLog_rename o n)), <- (map_map viewOfLog).
  rewrite (sort_map bySessionLog bySessionLog (renameViewIn o n)
             (bySessionLog_renameViewIn o n)).
  rewrite map_map. apply map_ext. intros v. apply sansName_renameViewIn.
Qed.

Lemma m_name_renameMemberIn (o n : jsstring) (m : Member) :
  m_name (renameMemberIn o n m) = substName o n (m_name m).
Proof.
  unfold renameMemberIn, substName. now destruct (jsstring_eqb (m_name m) o).
Qed.

Lemma session_renamed (o n : jsstring) (s : ActiveSession) :
  (s_name (renameSessionIn o n s), s_signInTime (renameSessionIn o n s))
  = (substName o n (s_name s), s_signInTime s).
Proof.
  unfold renameSessionIn, substName. now destruct (jsstring_eqb (s_name s) o).
Qed.

Lemma entry_renamed (o n : jsstring) (e : LogEntry) :
  (e_name (renameEntryIn o n e), e_signInTime (renameEntryIn o n e),
   e_signOutTime (renameEntryIn o n e))
  = (substName o n (e_name e), e_signInTime e, e_signOutTime e).
Proof.
  unfold renameEntryIn, substName. now destruct (jsstring_eqb (e_name e) o).
Qed.

Lemma substName_leaves_no_old (o n : jsstring) (l : list jsstring) :
  n <> o -> ~ In o (map (substName o n) l).
Proof.
  intros Hneq Hin. apply in_map_iff in Hin as (x & Hx & _).
  unfold substName in Hx. destruct (jsstring_eqb x o) eqn:E.
  - contradiction.
  - apply jsstring_eqb_neq in E. contradiction.
Qed.

(** C6. A successful rename (the trimmed new name not empty and its
    lower-case form shared by no other member) puts the new name in place of
    the old one: the names of the roster are the old names with every
    occurrence of the old name replaced, likewise the names of the active
    sessions, each with its sign-in time, and of the log entries, each with
    its two times and in its place. A new name other than the old one leaves
    no member of the old name. The names of the roster and of the active
    sessions stand in the order of [localeCompare] again. The merged view
    keeps its length and, position by position, everything but names, its
    entries being the old ones renamed. *)
Theorem handleSaveMember_rename `{HL : HostLaws} (st : State) (tid : Z)
    (edited : Member) :
  modalMode st = Some edit -> memberToEdit st = Some edited ->
  trim (memberNameInput st) <> [] ->
  (forall m, In m (members st) ->
     toLowerCase (m_name m) = toLowerCase (trim (memberNameInput st)) ->
     m_name m = m_name edited) ->
  Permutation (map m_name (members (handleSaveMember tid st)))
    (map (substName (m_name edited) (trim (memberNameInput st)))
         (map m_name (members st)))
  /\ (trim (memberNameInput st) <> m_name edited ->
      ~ In (m_name edited) (map m_name (members (handleSaveMember tid st))))
  /\ (In (m_name edited) (map m_name (members st)) ->
      In (trim (memberNameInput st))
         (map m_name (members (handleSaveMember tid st))))
  /\ StronglySorted nameOrder (map m_name (members (handleSaveMember tid st)))
  /\ Permutation
       (map (fun s => (s_name s, s_signInTime s))
            (activeSessions (handleSaveMember tid st)))
       (map (fun s => (substName (m_name edited) (trim (memberNameInput st))
                         (s_name s), s_signInTime s))
            (activeSessions st))
  /\ StronglySorted nameOrder
       (map s_name (activeSessions (handleSaveMember tid st)))
  /\ map (fun e => (e_name e, e_signInTime e, e_signOutTime e))
         (attendanceLog (handleSaveMember tid st)) =
     map (fun e => (substName (m_name edited) (trim (memberNameInput st))
                      (e_name e), e_signInTime e, e_signOutTime e))
         (attendanceLog st)
  /\ length (sessionLog (handleSaveMember tid st)) = length (sessionLog st)
  /\ map sansName (sessionLog (handleSaveMember tid st)) =
       map sansName (sessionLog st)
  /\ Permutation (sessionLog (handleSaveMember tid st))
       (map (renameViewIn (m_name edited) (trim (memberNameInput st)))
            (sessionLog st)).
Proof.
  intros Hmode Hed Hne Hother.
  pose proof (isDuplicate_edit_false _ _ _ Hmode Hed Hother) as Hd.
  rewrite (handleSaveMember_edit st tid edited Hmode Hed Hne Hd).
  set (o := m_name edited). set (n := trim (memberNameInput st)).
  assert (Hsame : map sansName
            (sessionLog
               (st |> setMembers
                        (sort byMemberName (map (renameMemberIn o n) (members st)))
                   |> setActiveSessions
                        (sort bySessionName
                           (map (renameSessionIn o n) (activeSessions st)))
                   |> setAttendanceLog
                        (map (renameEntryIn o n) (attendanceLog st))
                   |> addToast (lit "Member updated.") success tid
                   |> closeAddEditModal))
            = map sansName (sessionLog st)).
  { rewrite !sessionLog_split. simpl. rewrite !map_app. f_equal.
    - apply active_part_sansName.
      rewrite (Permutation_map s_signInTime (sort_perm bySessionName _)).
      rewrite map_map.
      now rewrite (map_ext _ _ (s_signInTime_rename o n)).
    - apply log_part_sansName. }
  simpl.
  assert (Hnames : Permutation
            (map m_name (sort byMemberName (map (renameMemberIn o n) (members st))))
            (map (substName o n) (map m_name (members st)))).
  { rewrite (Permutation_map m_name (sort_perm byMemberName _)).
    rewrite !map_map.
    now rewrite (map_ext _ _ (m_name_renameMemberIn o n)). }
  split; [exact Hnames|].
  split.
  { intros Hneq Hin. eapply Permutation_in in Hin; [|exact Hnames].
    now apply (substName_leaves_no_old o n) in Hin. }
  split.
  { intros Hin. eapply Permutation_in; [symmetry; exact Hnames|].
    apply in_map_iff. exists o. split; [|exact Hin].
    unfold substName. now rewrite jsstring_eqb_refl. }
  split; [apply members_in_nameOrder, sort_sorted;
          exact byMemberName_consistent|].
  split.
  { rewrite (Permutation_map _ (sort_perm bySessionName _)).
    rewrite map_map.
    now rewrite (map_ext _ _ (session_renamed o n)). }
  split; [apply sessions_in_nameOrder, sort_sorted;
          exact bySessionName_consistent|].
  split.
  { rewrite map_map. apply map_ext. intros e. apply entry_renamed. }
  split; [rewrite <- (length_map sansName), Hsame; apply length_map|].
  split; [exact Hsame|].
  rewrite (Permutation_map (renameViewIn o n) (sessionLog_perm st)).
  rewrite sessionLog_perm. simpl. rewrite map_app, !map_map.
  apply Permutation_app.
  - rewrite <- (map_ext _ _ (viewOfActive_rename o n)).
    rewrite <- (map_map (renameSessionIn o n) viewOfActive).
    apply Permutation_map, sort_perm.
  - now rewrite (map_ext _ _ (viewOfLog_rename o n)).
Qed.

Lemma handleSaveMember_rename_witness :
  modalMode renameDialog = Some edit
  /\ memberToEdit renameDialog = Some {| m_name := barry |}
  /\ trim (memberNameInput renameDialog) = lit "Zed"
  /\ firstn 2 (map m_name (members renameDialog)) = [andres; barry]
  /\ firstn 2 (map m_name
                 (members (handleSaveMember (H := plainHost) 9 renameDialog)))
     = [andres; lit "Ben Peach"]
  /\ last (map m_name
              (members (handleSaveMember (H := plainHost) 9 renameDialog))) []
     = lit "Zed"
  /\ map s_name (activeSessions renameDialog) = [andres; barry; lit "Ben Peach"]
  /\ map s_name
       (activeSessions (handleSaveMember (H := plainHost) 9 renameDialog))
     = [andres; lit "Ben Peach"; lit "Zed"]
  /\ map e_name (attendanceLog (handleSaveMember (H := plainHost) 9 renameDialog))
     = [lit "Zed"]
  /\ map v_name (sessionLog renameDialog)
     = [barry; lit "Ben Peach"; andres; barry]
  /\ map v_name (sessionLog (handleSaveMember (H := plainHost) 9 renameDialog))
     = [lit "Ben Peach"; lit "Zed"; andres; lit "Zed"]
  /\ ~ In barry (map m_name
                   (members (handleSaveMember (H := plainHost) 9 renameDialog)))
  /\ StronglySorted (nameOrder (H := plainHost))
       (map m_name (members (handleSaveMember (H := plainHost) 9 renameDialog)))
  /\ map sansName (sessionLog (handleSaveMember (H := plainHost) 9 renameDialog))
     = map sansName (sessionLog renameDialog).
Proof.
  split; [reflexivity|]. split; [reflexivity|].
  do 9 (split; [vm_compute; reflexivity|]).
  destruct (handleSaveMember_rename (H := plainHost) (HL := plainHost_laws)
              renameDialog 9 {| m_name := barry |} eq_refl eq_refl)
    as (_ & Hgone & _ & Hsorted & _ & _ & _ & _ & Hsame & _).
  - vm_compute. discriminate.
  - intros m Hm. vm_compute in Hm.
    repeat (destruct Hm as [<-|Hm]; [vm_compute; intros; congruence|]).
    destruct Hm.
  - split; [apply Hgone; vm_compute; discriminate|].
    split; [exact Hsorted | exact Hsame].
Defined.

(** ** Signing in outside the roster *)

Lemma filter_perm {A : Type} (p : A -> bool) (l l' : list A) :
  Permutation l l' -> Permutation (filter p l) (filter p l').
Proof.
  induction 1 as [|x l l' _ IH|x y l|l l' l'' _ IH1 _ IH2]; simpl.
  - constructor.
  - destruct (p x); [now constructor | exact IH].
  - destruct (p x), (p y); try reflexivity. apply perm_swap.
  - now transitivity (filter p l').
Qed.

Lemma filter_unnamed (name : jsstring) (l : list ActiveSession) :
  existsb (fun s => jsstring_eqb (s_name s) name) l = false ->
  filter (fun s => jsstring_eqb (s_name s) name) l = [].
Proof.
  induction l as [|s l IH]; simpl; [reflexivity|].
  intros Hl. apply orb_false_iff in Hl as [Hs Hl]. rewrite Hs. now apply IH.
Qed.

(** C9. For a non-empty name without an active session, signing in adds an
    active session of that name and the current time, after which the name
    has exactly one; the roster plays no part in it, and only the list of
    candidates the dialog offers is taken from the roster. *)
Theorem handleSignIn_ignores_roster `{Host} (st : State) (now tid : Z) :
  signInMemberName st <> [] ->
  hasActiveSession (signInMemberName st) st = false ->
  In {| s_name := signInMemberName st; s_signInTime := now |}
     (activeSessions (handleSignIn now tid st))
  /\ Permutation (activeSessions (handleSignIn now tid st))
       ({| s_name := signInMemberName st; s_signInTime := now |}
          :: activeSessions st)
  /\ filter (fun s => jsstring_eqb (s_name s) (signInMemberName st))
            (activeSessions (handleSignIn now tid st))
     = [{| s_name := signInMemberName st; s_signInTime := now |}]
  /\ (forall roster,
        activeSessions (handleSignIn now tid (setMembers roster st)) =
        activeSessions (handleSignIn now tid st))
  /\ (forall m, In m (availableMembersForSignIn st) -> In m (members st)).
Proof.
  intros Hne Hfree.
  pose proof (handleSignIn_adds st now tid Hne) as HP.
  split; [eapply Permutation_in; [symmetry; exact HP | now left]|].
  split; [exact HP|].
  split.
  { rewrite handleSignIn_sessions by exact Hne.
    set (name := signInMemberName st) in *.
    set (new := {| s_name := name; s_signInTime := now |}).
    assert (Hnone : filter (fun s => jsstring_eqb (s_name s) name)
                      (activeSessions st) = []).
    { now apply filter_unnamed. }
    assert (Hall : forall l, Permutation l (new :: activeSessions st) ->
              filter (fun s => jsstring_eqb (s_name s) name) l = [new]).
    { intros l Hl.
      assert (HPf : Permutation
                (filter (fun s => jsstring_eqb (s_name s) name) l) [new]).
      { rewrite (filter_perm _ _ _ Hl). simpl.
        rewrite jsstring_eqb_refl, Hnone. reflexivity. }
      now apply Permutation_sym, Permutation_length_1_inv in HPf. }
    apply Hall. rewrite sort_perm. symmetry. apply Permutation_cons_append. }
  split.
  - intros roster. unfold handleSignIn. simpl.
    now destruct (isEmpty (signInMemberName st)).
  - intros m Hm. now apply available_not_active in Hm.
Qed.

Lemma handleSignIn_ignores_roster_witness :
  signInMemberName strangerChosen = stranger
  /\ existsb (fun m => jsstring_eqb (m_name m) stranger) (members strangerChosen)
     = false
  /\ hasActiveSession stranger strangerChosen = false
  /\ In {| s_name := stranger; s_signInTime := 6 |}
        (activeSessions (handleSignIn (H := plainHost) 6 6 strangerChosen)).
Proof.
  split; [reflexivity|]. split; [vm_compute; reflexivity|].
  split; [vm_compute; reflexivity|].
  refine (proj1 (handleSignIn_ignores_roster (H := plainHost)
                   strangerChosen 6 6 _ _)).
  - vm_compute. discriminate.
  - vm_compute. reflexivity.
Defined.

(** ** The exported text *)

Lemma fold_left_append {A : Type} (f : A -> jsstring) (l : list A)
    (content : jsstring) :
  fold_left (fun content x => content ++ f x) l content =
  content ++ concat (map f l).
Proof.
  revert content. induction l as [|x l IH]; intros content; simpl.
  - now rewrite app_nil_r.
  - now rewrite IH, app_assoc.
Qed.

Lemma maxNameLength_bounds (log : list SessionView) :
  Forall (fun v => (length (v_name v) <= maxNameLength log)%nat) log
  /\ (length (lit "Member") <= maxNameLength log)%nat
  /\ (maxNameLength log = length (lit "Member") \/
      exists v, In v log /\ maxNameLength log = length (v_name v)).
Proof.
  unfold maxNameLength. induction log as [|v log (IHall & IHmin & IHhit)]; simpl.
  - split; [constructor|]. split; [lia | now left].
  - split; [|split].
    + constructor; [lia|]. eapply Forall_impl; [|exact IHall].
      intros u Hu. simpl in Hu. lia.
    + simpl in IHmin. lia.
    + destruct (Nat.max_spec (length (v_name v))
                  (fold_right Nat.max 6%nat
                     (map (fun e => length (v_name e)) log)))
        as [[_ Hmax]|[_ Hmax]]; simpl in *; rewrite Hmax.
      * destruct IHhit as [Hm|(u & Hu & Hm)]; [now left|].
        right. exists u. split; [now right | exact Hm].
      * right. exists v. split; [now left | reflexivity].
Qed.

Section ExportText.
Context `{Host}.

Lemma exportContent_empty (generated : Z) (st : State) :
  sessionLog st = [] ->
  exportContent generated st =
  exportHeader generated st ++ newline ++ noRecordsMessage ++ newline.
Proof. intros He. unfold exportContent. now rewrite He. Qed.

Lemma exportContent_rows (generated : Z) (st : State) :
  sessionLog st <> [] ->
  exportContent generated st =
  exportHeader generated st ++
  exportColumns (maxNameLength (sessionLog st)) ++
  exportRule (maxNameLength (sessionLog st)) ++
  concat (map (exportRow (maxNameLength (sessionLog st))) (sessionLog st)).
Proof.
  intros Hne. unfold exportContent.
  destruct (sessionLog st) as [|v log] eqn:Hlog; [congruence|].
  cbv beta iota zeta delta [someNonEmpty].
  now rewrite fold_left_append, <- !app_assoc.
Qed.

Lemma exportColumns_not_blank (w : nat) (rest tail : jsstring) :
  exportColumns w ++ rest <> newline ++ tail.
Proof. unfold exportColumns, padEnd. simpl. discriminate. Qed.

End ExportText.

(** C8, refuted as stated: the export of a task whose number is the text of
    the no-records message contains that text although a member is signed
    in and the merged view is not empty. *)
Lemma export_of_mislabelled_task_contains_message :
  run (H := plainHost) 0 mislabelledTrace startState = Some (2, mislabelledTask)
  /\ length (sessionLog mislabelledTask) = 1%nat
  /\ includes (exportContent (H := plainHost) 3 mislabelledTask) noRecordsMessage
     = true.
Proof. vm_compute. repeat split. Qed.

(** C8, amended. The export is the header block followed, when the merged
    view is empty, by the no-records line, which the output then contains,
    and otherwise by the column header, the rule and one row per entry of
    the merged view in its order. The no-records line follows the header
    exactly when the merged view is empty. The name column is as wide as the
    longest name in the view and at least as wide as the word Member, every
    row's name is padded to that width, and an entry without a sign-out
    time, as every active session is, shows three dots in the last column.
    (With a non-empty view the text of the message can still occur in the
    output inside a task number or a name.) *)
Theorem exportContent_layout `{Host} (generated : Z) (st : State) :
  (sessionLog st = [] ->
     exportContent generated st =
       exportHeader generated st ++ newline ++ noRecordsMessage ++ newline
     /\ includes (exportContent generated st) noRecordsMessage = true)
  /\ (sessionLog st <> [] ->
      exportContent generated st =
        exportHeader generated st ++
        exportColumns (maxNameLength (sessionLog st)) ++
        exportRule (maxNameLength (sessionLog st)) ++
        concat (map (exportRow (maxNameLength (sessionLog st))) (sessionLog st)))
  /\ (exportContent generated st =
        exportHeader generated st ++ newline ++ noRecordsMessage ++ newline
      <-> sessionLog st = [])
  /\ length (map (exportRow (maxNameLength (sessionLog st))) (sessionLog st))
     = (length (activeSessions st) + length (attendanceLog st))%nat
  /\ (Forall (fun v => (length (v_name v) <= maxNameLength (sessionLog st))%nat)
        (sessionLog st)
      /\ (length (lit "Member") <= maxNameLength (sessionLog st))%nat
      /\ (maxNameLength (sessionLog st) = length (lit "Member") \/
          exists v, In v (sessionLog st) /\
                    maxNameLength (sessionLog st) = length (v_name v)))
  /\ (forall v, In v (sessionLog st) ->
        length (padEnd (v_name v) (maxNameLength (sessionLog st)))
          = maxNameLength (sessionLog st)
        /\ exists rest,
             exportRow (maxNameLength (sessionLog st)) v =
             padEnd (v_name v) (maxNameLength (sessionLog st)) ++
             separator ++ rest)
  /\ (forall v, In v (sessionLog st) -> v_signOutTime v = None ->
        exists front,
          exportRow (maxNameLength (sessionLog st)) v =
          front ++ separator ++ lit "..." ++ newline)
  /\ (forall s, In s (activeSessions st) ->
        In (viewOfActive s) (sessionLog st) /\
        v_signOutTime (viewOfActive s) = None).
Proof.
  split.
  { intros He. rewrite (exportContent_empty generated st He). split; trivial.
    rewrite (app_assoc (exportHeader generated st) newline).
    apply includes_infix. }
  split; [apply exportContent_rows|].
  split.
  { split; [|apply exportContent_empty].
    intros Heq. destruct (sessionLog st) as [|v log] eqn:Hlog; [reflexivity|].
    exfalso. rewrite exportContent_rows in Heq by (rewrite Hlog; discriminate).
    apply app_inv_head in Heq. now apply exportColumns_not_blank in Heq. }
  split.
  { rewrite length_map, (Permutation_length (sessionLog_perm st)).
    now rewrite length_app, !length_map. }
  split; [apply maxNameLength_bounds|].
  split.
  { intros v Hv. split.
    - apply padEnd_length.
      pose proof (proj1 (maxNameLength_bounds (sessionLog st))) as Hall.
      eapply Forall_forall in Hall; [exact Hall | exact Hv].
    - eexists. unfold exportRow. reflexivity. }
  split.
  { intros v Hv Hnone. unfold exportRow. rewrite Hnone.
    exists (padEnd (v_name v) (maxNameLength (sessionLog st)) ++ separator ++
            padEnd (statusText (v_status v)) 12 ++ separator ++
            padEnd (formatDateTime (Some (v_signInTime v))) 22).
    now rewrite <- !app_assoc. }
  intros s Hs. split; [|reflexivity].
  eapply Permutation_in; [symmetry; apply sessionLog_perm|].
  apply in_or_app. left. now apply in_map.
Qed.

Lemma exportContent_layout_witness :
  (sessionLog startState = [] /\
   includes (exportContent (H := plainHost) 3 startState) noRecordsMessage = true)
  /\ (sessionLog andresSignedIn <> [] /\
      exportContent (H := plainHost) 3 andresSignedIn =
        exportHeader (H := plainHost) 3 andresSignedIn ++
        lit "Member      | Status       | Signed In              | Signed Out" ++
        newline ++
        lit "------------+--------------+------------------------+-----------------------" ++
        newline ++
        lit "Andres Dean | Signed In    | 1                      | ..." ++
        newline).
Proof.
  split.
  - split; [reflexivity|].
    apply (exportContent_layout (H := plainHost) 3 startState). reflexivity.
  - assert (Hne : sessionLog andresSignedIn <> [])
      by (vm_compute; discriminate).
    split; [exact Hne|].
    destruct (exportContent_layout (H := plainHost) 3 andresSignedIn)
      as (_ & Hrows & _).
    rewrite (Hrows Hne). vm_compute. reflexivity.
Defined.

(** * Further properties of the handlers *)

(** ** More on sorting and trimming *)

Section SortMore.
Context {A : Type} (cmp : A -> A -> Z) `{!Consistent cmp}.

Lemma insert_least (x : A) (l : list A) :
  Forall (before cmp x) l -> insert cmp x l = x :: l.
Proof.
  intros Hl. destruct Hl as [|y l Hy _]; simpl; [reflexivity|].
  unfold before in Hy. apply Z.leb_le in Hy. now rewrite Hy.
Qed.

(** Sorting leaves a sorted list as it is. *)
Lemma sort_sorted_id (l : list A) :
  StronglySorted (before cmp) l -> sort cmp l = l.
Proof.
  induction 1 as [|x l Hl IH Hx]; simpl; [reflexivity|].
  rewrite IH. now apply insert_least.
Qed.

Lemma filter_insert (p : A -> bool) (x : A) (l : list A) :
  StronglySorted (before cmp) l ->
  filter p (insert cmp x l) =
  if p x then insert cmp x (filter p l) else filter p l.
Proof.
  induction 1 as [|y l Hl IH Hy]; simpl.
  - now destruct (p x).
  - destruct (cmp x y <=? 0) eqn:E.
    + apply Z.leb_le in E. simpl. destruct (p x); [|reflexivity].
      symmetry. apply insert_least.
      assert (Hall : Forall (before cmp x) (y :: l)).
      { constructor; [exact E|]. eapply Forall_impl; [|exact Hy].
        intros z Hz. now apply (cmp_trans x y z). }
      change (Forall (before cmp x) (filter p (y :: l))).
      rewrite Forall_forall in *. intros z Hz. apply filter_In in Hz.
      now apply Hall.
    + simpl. destruct (p y); simpl; rewrite IH; destruct (p x); trivial.
      now rewrite E.
Qed.

(** Dropping entries before or after sorting comes to the same. *)
Lemma filter_sort (p : A -> bool) (l : list A) :
  filter p (sort cmp l) = sort cmp (filter p l).
Proof.
  induction l as [|x l IH]; simpl; [reflexivity|].
  rewrite filter_insert by now apply sort_sorted.
  rewrite IH. now destruct (p x).
Qed.

End SortMore.

Lemma filter_map_comm {A B : Type} (f : A -> B) (p : B -> bool) (l : list A) :
  filter p (map f l) = map f (filter (fun x => p (f x)) l).
Proof.
  induction l as [|x l IH]; simpl; [reflexivity|].
  destruct (p (f x)); simpl; now rewrite IH.
Qed.

Lemma filter_all {A : Type} (p : A -> bool) (l : list A) :
  (forall x, In x l -> p x = true) -> filter p l = l.
Proof.
  induction l as [|x l IH]; intros Hp; simpl; [reflexivity|].
  rewrite (Hp x) by now left. f_equal. apply IH. intros y Hy. apply Hp. now right.
Qed.

Lemma find_filter_head {A : Type} (p : A -> bool) (l : list A) :
  find p l = hd_error (filter p l).
Proof.
  induction l as [|x l IH]; simpl; [reflexivity|]. now destruct (p x).
Qed.

Lemma trimStart_idem (s : jsstring) : trimStart (trimStart s) = trimStart s.
Proof.
  induction s as [|c s IH]; simpl; [reflexivity|].
  destruct (isWhiteSpace c) eqn:E; [exact IH|]. simpl. now rewrite E.
Qed.

Lemma trimStart_snoc (s : jsstring) (c : N) :
  trimStart (s ++ [c]) =
  match trimStart s with
  | [] => if isWhiteSpace c then [] else [c]
  | t => t ++ [c]
  end.
Proof.
  induction s as [|d s IH]; simpl; [reflexivity|].
  now destruct (isWhiteSpace d).
Qed.

Lemma trimEnd_cons (c : N) (s : jsstring) :
  trimEnd (c :: s) =
  match trimEnd s with
  | [] => if isWhiteSpace c then [] else [c]
  | t => c :: t
  end.
Proof.
  unfold trimEnd. simpl. rewrite trimStart_snoc.
  destruct (trimStart (rev s)) as [|d t] eqn:E; simpl.
  - now destruct (isWhiteSpace c).
  - rewrite rev_app_distr. simpl.
    destruct (rev t ++ [d]) eqn:E'; [now destruct (rev t)|reflexivity].
Qed.

Lemma trimEnd_idem (s : jsstring) : trimEnd (trimEnd s) = trimEnd s.
Proof. unfold trimEnd. now rewrite rev_involutive, trimStart_idem. Qed.

(** Trimming the end of a string that starts with no blank exposes none. *)
Lemma trimStart_trimEnd (s : jsstring) :
  trimStart s = s -> trimStart (trimEnd s) = trimEnd s.
Proof.
  destruct s as [|c s]; [reflexivity|]. simpl.
  destruct (isWhiteSpace c) eqn:E.
  - intros Heq. exfalso.
    assert (Hlen : forall t, (length (trimStart t) <= length t)%nat).
    { induction t as [|d t IH]; simpl; [lia|].
      destruct (isWhiteSpace d); simpl; lia. }
    specialize (Hlen s). rewrite Heq in Hlen. simpl in Hlen. lia.
  - intros _. rewrite trimEnd_cons.
    destruct (trimEnd s); rewrite ?E; simpl; now rewrite E.
Qed.

Lemma trim_idem (s : jsstring) : trim (trim s) = trim s.
Proof.
  unfold trim.
  rewrite (trimStart_trimEnd (trimStart s)) by apply trimStart_idem.
  apply trimEnd_idem.
Qed.

(** ** Invariants of the roster *)

Lemma predefined_names_wellFormed : Forall wellFormedName PREDEFINED_MEMBERS.
Proof. repeat constructor; discriminate. Qed.

Lemma wellFormedName_trim (s : jsstring) : trim s <> [] -> wellFormedName (trim s).
Proof. intros Hne. split; [exact Hne | apply trim_idem]. Qed.

Lemma Forall_renameMemberIn (P : jsstring -> Prop) (o n : jsstring)
    (l : list Member) :
  P n -> Forall (fun m => P (m_name m)) l ->
  Forall (fun m => P (m_name m)) (map (renameMemberIn o n) l).
Proof.
  intros Hn Hl. apply Forall_map. eapply Forall_impl; [|exact Hl].
  intros m Hm. unfold renameMemberIn. now destruct (jsstring_eqb (m_name m) o).
Qed.

Section RosterNames.
Context `{Host}.

Lemma handleSaveMember_namesWellFormed (tid : Z) (st : State) :
  namesWellFormed st -> namesWellFormed (handleSaveMember tid st).
Proof.
  intros [Hm He]. unfold handleSaveMember.
  destruct (isEmpty (trim (memberNameInput st))) eqn:Hne; [now split|].
  apply isEmpty_false in Hne. pose proof (wellFormedName_trim _ Hne) as Hwf.
  destruct (isDuplicate _ _); [now split|].
  destruct (modalMode st) as [[|]|]; [| |now split].
  - split; simpl; [|exact He]. apply Forall_sort, Forall_app.
    split; [exact Hm | constructor; [exact Hwf | constructor]].
  - destruct (memberToEdit st); [|now split].
    split; simpl; [|exact He].
    now apply Forall_sort, (Forall_renameMemberIn wellFormedName).
Qed.

Lemma step_namesWellFormed (ev : Event) (st : State) :
  namesWellFormed st -> namesWellFormed (step ev st).
Proof.
  intros HI. pose proof HI as [Hm He].
  destruct ev; simpl; try exact HI.
  - unfold handleSignIn. now destruct (isEmpty _).
  - unfold handleSignOut. now destruct (find _ _).
  - unfold openAddEditModal. now destruct mode, member.
  - now apply handleSaveMember_namesWellFormed.
  - unfold handleDeleteMember. now destruct (memberToEdit st).
  - unfold handleConfirm.
    destruct (cm_onConfirm (confirmModalProps st)); try exact HI.
    split; simpl; [now apply Forall_filter | exact He].
  - split; [exact Hm | exact Hm].
  - split; [exact Hm | constructor].
  - split; [exact Hm|]. simpl. now apply Forall_filter.
  - split; simpl; [|constructor]. rewrite map_member_eta.
    now apply Forall_sort.
  - unfold openNewTaskModal. now destruct (_ || _).
  - unfold handleStartNewTask. now destruct (isEmpty _).
  - unfold handleClearLog. now destruct (_ && _).
Qed.

Lemma step_sessionsSorted `{!HostLaws H} (ev : Event) (st : State) :
  sessionsSorted st -> sessionsSorted (step ev st).
Proof.
  unfold sessionsSorted. intros HI.
  destruct ev; simpl; try exact HI.
  - unfold handleSignIn. destruct (isEmpty _); [exact HI|]. simpl.
    apply sort_sorted. exact bySessionName_consistent.
  - unfold handleSignOut. destruct (find _ _); [|exact HI]. simpl.
    apply filter_sorted; first [exact bySessionName_consistent | exact HI].
  - unfold openAddEditModal. now destruct mode, member.
  - unfold handleSaveMember. destruct (isEmpty _); [exact HI|].
    destruct (isDuplicate _ _); [exact HI|].
    destruct (modalMode st) as [[|]|]; simpl; try exact HI.
    destruct (memberToEdit st); simpl; [|exact HI].
    apply sort_sorted. exact bySessionName_consistent.
  - unfold handleDeleteMember. now destruct (memberToEdit st).
  - unfold handleConfirm.
    destruct (cm_onConfirm (confirmModalProps st)); simpl;
      try exact HI; [|constructor].
    apply filter_sorted; first [exact bySessionName_consistent | exact HI].
  - constructor.
  - unfold openNewTaskModal. now destruct (_ || _).
  - unfold handleStartNewTask. destruct (isEmpty _); [exact HI|constructor].
  - unfold handleClearLog. now destruct (_ && _).
Qed.

Lemma step_taskNumber_trimmed (ev : Event) (st : State) :
  trim (taskNumber st) = taskNumber st ->
  trim (taskNumber (step ev st)) = taskNumber (step ev st).
Proof.
  intros HI. destruct ev; simpl; try exact HI.
  - unfold handleSignIn. now destruct (isEmpty _).
  - unfold handleSignOut. now destruct (find _ _).
  - unfold openAddEditModal. now destruct mode, member.
  - unfold handleSaveMember. destruct (isEmpty _); [exact HI|].
    destruct (isDuplicate _ _); [exact HI|].
    destruct (modalMode st) as [[|]|]; simpl; try exact HI.
    now destruct (memberToEdit st).
  - unfold handleDeleteMember. now destruct (memberToEdit st).
  - unfold handleConfirm. now destruct (cm_onConfirm (confirmModalProps st)).
  - unfold openNewTaskModal. now destruct (_ || _).
  - unfold handleStartNewTask. destruct (isEmpty _); [exact HI|]. simpl.
    apply trim_idem.
  - unfold handleClearLog. now destruct (_ && _).
Qed.

End RosterNames.

(** Dropping elements of a list without repeated keys repeats none. *)
Lemma NoDup_map_filter {K V : Type} (key : V -> K) (keep : V -> bool)
    (vs : list V) (Hnd : NoDup (map key vs)) :
  NoDup (map key (filter keep vs)).
Proof.
  induction vs as [|v vs IH]; simpl in *; [constructor|].
  apply NoDup_cons_iff in Hnd as [Hv Hvs].
  destruct (keep v); simpl; [|exact (IH Hvs)].
  apply NoDup_cons; [|exact (IH Hvs)].
  contradict Hv. apply in_map_iff in Hv as (u & Hu & Hin).
  apply filter_In in Hin as [Hin _]. rewrite <- Hu. now apply in_map.
Qed.

(** A second key that separates no more than the first keeps a list
    without repetition so. *)
Lemma NoDup_map_finer {A B C : Type} (f : A -> B) (g : A -> C) (l : list A) :
  (forall x y, In x l -> In y l -> g x = g y -> f x = f y) ->
  NoDup (map f l) -> NoDup (map g l).
Proof.
  induction l as [|x l IH]; simpl; intros Hfg Hnd; [constructor|].
  inversion Hnd as [|y l' Hx Hl]; subst. constructor.
  - intros Hin. apply Hx. apply in_map_iff in Hin as (y & Hy & Hin).
    apply in_map_iff. exists y. split; [|exact Hin].
    symmetry. apply Hfg; auto.
  - apply IH; [|exact Hl]. intros a b Ha Hb. apply Hfg; auto.
Qed.

Section RosterDistinct.
Context `{Host}.

Lemma isDuplicate_edit_inv (name : jsstring) (edited : Member) (st : State) :
  modalMode st = Some edit -> memberToEdit st = Some edited ->
  isDuplicate name st = false ->
  forall m, In m (members st) ->
    toLowerCase (m_name m) = toLowerCase name -> m_name m = m_name edited.
Proof.
  intros Hmode Hed Hd m Hm Hl. unfold isDuplicate in Hd.
  rewrite Hmode, Hed in Hd. simpl in Hd.
  destruct (jsstring_eqb (m_name m) (m_name edited)) eqn:E;
    [now apply jsstring_eqb_eq|].
  exfalso. enough (Ht : existsb
    (fun member =>
       jsstring_eqb (toLowerCase (m_name member)) (toLowerCase name) &&
       negb (jsstring_eqb (m_name member) (m_name edited))) (members st) = true)
    by congruence.
  apply existsb_exists. exists m. split; [exact Hm|].
  rewrite E. simpl. rewrite andb_true_r. now apply jsstring_eqb_eq.
Qed.

Lemma rename_keeps_distinct (o n : jsstring) (l : list Member) :
  (forall m, In m l -> toLowerCase (m_name m) = toLowerCase n -> m_name m = o) ->
  NoDup (map lowerName l) ->
  NoDup (map lowerName (map (renameMemberIn o n) l)).
Proof.
  intros Hother Hnd. rewrite map_map.
  apply (NoDup_map_finer lowerName); [|exact Hnd].
  intros x y Hx Hy. unfold lowerName, renameMemberIn.
  destruct (jsstring_eqb (m_name x) o) eqn:Ex,
           (jsstring_eqb (m_name y) o) eqn:Ey; simpl; intros Heq.
  - apply jsstring_eqb_eq in Ex, Ey. congruence.
  - apply jsstring_eqb_neq in Ey. symmetry in Heq.
    now apply Hother in Heq.
  - apply jsstring_eqb_neq in Ex. now apply Hother in Heq.
  - exact Heq.
Qed.

Lemma sort_keeps_distinct (l : list Member) :
  NoDup (map lowerName l) -> NoDup (map lowerName (sort byMemberName l)).
Proof.
  apply Permutation_NoDup, Permutation_map. symmetry. apply sort_perm.
Qed.

Lemma handleSaveMember_namesDistinct (tid : Z) (st : State) :
  namesDistinct st -> namesDistinct (handleSaveMember tid st).
Proof.
  intros [Hm He]. unfold handleSaveMember.
  destruct (isEmpty (trim (memberNameInput st))); [now split|].
  destruct (isDuplicate _ _) eqn:Hd; [now split|].
  destruct (modalMode st) as [[|]|] eqn:Hmode; [| |now split].
  - split; simpl; [|exact He]. apply sort_keeps_distinct.
    eapply Permutation_NoDup;
      [apply Permutation_map, Permutation_cons_append|].
    simpl. constructor; [|exact Hm].
    intros Hin. apply in_map_iff in Hin as (m & Hl & Hin).
    assert (Ht : isDuplicate (trim (memberNameInput st)) st = true)
      by (apply isDuplicate_add; [exact Hmode | now exists m]).
    congruence.
  - destruct (memberToEdit st) as [edited|] eqn:Hed; [|now split].
    split; simpl; [|exact He].
    apply sort_keeps_distinct, rename_keeps_distinct; [|exact Hm].
    now apply isDuplicate_edit_inv.
Qed.

Lemma step_namesDistinct (ev : Event) (st : State) :
  namesDistinct st -> namesDistinct (step ev st).
Proof.
  intros HI. pose proof HI as [Hm He].
  destruct ev; simpl; try exact HI.
  - unfold handleSignIn. now destruct (isEmpty _).
  - unfold handleSignOut. now destruct (find _ _).
  - unfold openAddEditModal. now destruct mode, member.
  - now apply handleSaveMember_namesDistinct.
  - unfold handleDeleteMember. now destruct (memberToEdit st).
  - unfold handleConfirm.
    destruct (cm_onConfirm (confirmModalProps st)); try exact HI.
    split; simpl; [now apply NoDup_map_filter | exact He].
  - split; [exact Hm | exact Hm].
  - split; [exact Hm | constructor].
  - split; [exact Hm|]. simpl. now apply NoDup_map_filter.
  - split; simpl; [|constructor]. rewrite map_member_eta.
    now apply sort_keeps_distinct.
  - unfold openNewTaskModal. now destruct (_ || _).
  - unfold handleStartNewTask. now destruct (isEmpty _).
  - unfold handleClearLog. now destruct (_ && _).
Qed.

End RosterDistinct.

(** X1. Provided the host lower-cases the predefined names to distinct
    strings, no two members of the roster ever have names of the same
    lower-case form: adding and renaming refuse such names, deleting and
    replacing only take members away. *)
Theorem roster_names_distinct `{Host} (st : State) :
  NoDup (map toLowerCase PREDEFINED_MEMBERS) ->
  reachable st -> NoDup (map lowerName (members st)).
Proof.
  intros Hpre [t Hr].
  enough (HI : namesDistinct st) by exact (proj1 HI).
  revert t st Hr. apply (reachableAt_invariant (fun _ st => namesDistinct st)).
  - intros _. split; [|constructor].
    change (members initialState) with sortedPredefinedMembers.
    apply sort_keeps_distinct. rewrite map_map. exact Hpre.
  - intros t st ev HI _. now apply step_namesDistinct.
Qed.

(** X2. Every name on the roster is non-empty and has no white space at
    either end, in every reachable state. *)
Theorem roster_names_wellFormed `{Host} (st : State) :
  reachable st -> Forall (fun m => wellFormedName (m_name m)) (members st).
Proof.
  intros [t Hr].
  enough (HI : namesWellFormed st) by exact (proj1 HI).
  revert t st Hr. apply (reachableAt_invariant (fun _ st => namesWellFormed st)).
  - intros _. split; [|constructor].
    change (members initialState) with sortedPredefinedMembers.
    apply Forall_sort, Forall_map. exact predefined_names_wellFormed.
  - intros t st ev HI _. now apply step_namesWellFormed.
Qed.

(** X3. In every reachable state the names of the active sessions stand
    in the order of [localeCompare], none after a later one. *)
Theorem sessions_always_sorted `{HL : HostLaws} (st : State) :
  reachable st -> StronglySorted nameOrder (map s_name (activeSessions st)).
Proof.
  intros [t Hr]. apply sessions_in_nameOrder. revert t st Hr.
  apply (reachableAt_invariant (fun _ st => sessionsSorted st)).
  - intros _. constructor.
  - intros t st ev HI _. now apply step_sessionsSorted.
Qed.

(** X4. The task number is stored trimmed: in every reachable state it
    has no white space at either end. A task number that is blank after
    trimming is refused without any change. *)
Theorem taskNumber_stored_trimmed `{Host} (st : State) (tid : Z) :
  (trim (newTaskNumberInput st) = [] -> handleStartNewTask tid st = st)
  /\ (reachable st -> trim (taskNumber st) = taskNumber st).
Proof.
  split.
  - intros He. unfold handleStartNewTask. now rewrite He.
  - intros [t Hr]. revert t st Hr.
    apply (reachableAt_invariant
             (fun _ st => trim (taskNumber st) = taskNumber st)).
    + intros _. reflexivity.
    + intros t st ev HI _. now apply step_taskNumber_trimmed.
Qed.

Lemma plain_predefined_distinct :
  NoDup (map (toLowerCase (Host := plainHost)) PREDEFINED_MEMBERS).
Proof.
  vm_compute.
  repeat (constructor;
          [intros Hin;
           repeat (destruct Hin as [Hin|Hin]; [discriminate Hin|]);
           exact Hin|]).
  constructor.
Qed.

Lemma roster_names_distinct_witness :
  reachable (H := plainHost) zoeAdded /\
  NoDup (map (lowerName (H := plainHost)) (members zoeAdded)).
Proof.
  assert (Hr : reachable (H := plainHost) zoeAdded)
    by (exists 7, 0, zoeTrace; vm_compute; reflexivity).
  split; [exact Hr|].
  exact (roster_names_distinct (H := plainHost) zoeAdded
           plain_predefined_distinct Hr).
Defined.

Lemma roster_names_wellFormed_witness :
  reachable (H := plainHost) zoeAdded /\
  Forall (fun m => wellFormedName (m_name m)) (members zoeAdded).
Proof.
  assert (Hr : reachable (H := plainHost) zoeAdded)
    by (exists 7, 0, zoeTrace; vm_compute; reflexivity).
  split; [exact Hr|].
  exact (roster_names_wellFormed (H := plainHost) zoeAdded Hr).
Defined.

Lemma sessions_always_sorted_witness :
  reachable (H := plainHost) shuffledState /\
  map s_name (activeSessions shuffledState) = [andres; barry; lit "Ben Peach"] /\
  StronglySorted (nameOrder (H := plainHost))
    (map s_name (activeSessions shuffledState)).
Proof.
  assert (Hr : reachable (H := plainHost) shuffledState)
    by (exists 3, 0, shuffledTrace; vm_compute; reflexivity).
  split; [exact Hr|]. split; [vm_compute; reflexivity|].
  exact (sessions_always_sorted (H := plainHost) (HL := plainHost_laws)
           shuffledState Hr).
Defined.

Lemma taskNumber_stored_trimmed_witness :
  (trim (newTaskNumberInput (setNewTaskNumberInput (lit "   ") busyState)) = []
   /\ handleStartNewTask 9 (setNewTaskNumberInput (lit "   ") busyState)
      = setNewTaskNumberInput (lit "   ") busyState)
  /\ (reachable (H := plainHost) taskStarted
      /\ taskNumber taskStarted = lit "2024-05"
      /\ trim (taskNumber taskStarted) = taskNumber taskStarted).
Proof.
  split.
  - split; [reflexivity|].
    apply (taskNumber_stored_trimmed (H := plainHost)
             (setNewTaskNumberInput (lit "   ") busyState) 9).
    reflexivity.
  - assert (Hr : reachable (H := plainHost) taskStarted)
      by (exists 1, 0, taskTrace; vm_compute; reflexivity).
    split; [exact Hr|]. split; [vm_compute; reflexivity|].
    exact (proj2 (taskNumber_stored_trimmed (H := plainHost) taskStarted 0) Hr).
Defined.

(** ** Signing in and out again *)

Section RoundTrip.
Context `{HL : HostLaws}.

Lemma reachable_sessionsSorted (st : State) :
  reachable st -> sessionsSorted st.
Proof.
  intros [t Hr]. revert t st Hr.
  apply (reachableAt_invariant (fun _ st => sessionsSorted st)).
  - intros _. constructor.
  - intros t st ev HI _. now apply step_sessionsSorted.
Qed.

Lemma reachable_rosterSorted (st : State) : reachable st -> rosterSorted st.
Proof.
  intros [t Hr]. revert t st Hr.
  apply (reachableAt_invariant (fun _ st => rosterSorted st)).
  - intros _. apply sortedPredefinedMembers_sorted.
  - intros t st ev Hs _. now apply step_rosterSorted.
Qed.

Lemma handleSignIn_frame (now tid : Z) (st : State) :
  members (handleSignIn now tid st) = members st
  /\ attendanceLog (handleSignIn now tid st) = attendanceLog st
  /\ taskNumber (handleSignIn now tid st) = taskNumber st.
Proof. unfold handleSignIn. now destruct (isEmpty _). Qed.

Lemma handleSignOut_found (name : jsstring) (now tid : Z) (st : State)
    (s : ActiveSession) :
  find (fun s => jsstring_eqb (s_name s) name) (activeSessions st) = Some s ->
  handleSignOut name now tid st =
  (st |> setAttendanceLog
           ({| e_name := s_name s; e_signInTime := s_signInTime s;
               e_signOutTime := now |} :: attendanceLog st)
      |> setActiveSessions
           (filter (fun s => negb (jsstring_eqb (s_name s) name))
                   (activeSessions st))
      |> addToast (name ++ lit " signed out.") info tid).
Proof. intros Hf. unfold handleSignOut. now rewrite Hf. Qed.

Lemma unnamed_all_kept (name : jsstring) (l : list ActiveSession) :
  existsb (fun s => jsstring_eqb (s_name s) name) l = false ->
  filter (fun s => negb (jsstring_eqb (s_name s) name)) l = l.
Proof.
  intros Hl. apply filter_all. intros s Hs. apply negb_true_iff.
  destruct (jsstring_eqb (s_name s) name) eqn:E; [|reflexivity].
  assert (Ht : existsb (fun s => jsstring_eqb (s_name s) name) l = true)
    by (apply existsb_exists; now exists s).
  congruence.
Qed.

End RoundTrip.

(** X5. In a reachable state, signing in a member without an open session
    and signing the same name out again restores the active sessions as
    they were and puts exactly one entry in front of the log, with the two
    clock readings as its times; roster and task number are untouched. *)
Theorem signIn_signOut_round_trip `{HL : HostLaws} (st : State)
    (name : jsstring) (now1 tid1 now2 tid2 : Z) :
  reachable st -> name <> [] -> hasActiveSession name st = false ->
  activeSessions (signOut name now2 tid2 (signIn name now1 tid1 st))
    = activeSessions st
  /\ attendanceLog (signOut name now2 tid2 (signIn name now1 tid1 st))
     = {| e_name := name; e_signInTime := now1; e_signOutTime := now2 |}
         :: attendanceLog st
  /\ members (signOut name now2 tid2 (signIn name now1 tid1 st)) = members st
  /\ taskNumber (signOut name now2 tid2 (signIn name now1 tid1 st))
     = taskNumber st.
Proof.
  intros Hr Hne Hfree. unfold signOut, signIn.
  set (st1 := setSignInMemberName name st).
  set (new := {| s_name := name; s_signInTime := now1 |}).
  assert (Hact : activeSessions (handleSignIn now1 tid1 st1)
                 = sort bySessionName (activeSessions st ++ [new]))
    by (now apply (handleSignIn_sessions st1)).
  destruct (handleSignIn_frame now1 tid1 st1) as (Hmem & Hlog & Htask).
  set (st2 := handleSignIn now1 tid1 st1) in *.
  assert (Hnone : filter (fun s => jsstring_eqb (s_name s) name)
                    (activeSessions st) = []) by now apply filter_unnamed.
  assert (Hfind : find (fun s => jsstring_eqb (s_name s) name)
                    (activeSessions st2) = Some new).
  { rewrite find_filter_head, Hact.
    rewrite (filter_sort bySessionName (Consistent0 := bySessionName_consistent)).
    rewrite filter_app, Hnone. simpl. unfold new at 1. simpl.
    now rewrite jsstring_eqb_refl. }
  rewrite (handleSignOut_found name now2 tid2 st2 new Hfind). simpl.
  rewrite Hact, Hlog, Hmem, Htask.
  split; [|now repeat split].
  rewrite (filter_sort bySessionName (Consistent0 := bySessionName_consistent)).
  rewrite filter_app. simpl. rewrite jsstring_eqb_refl. simpl.
  rewrite app_nil_r, (unnamed_all_kept name _ Hfree).
  apply sort_sorted_id;
    first [exact bySessionName_consistent | now apply reachable_sessionsSorted].
Qed.

Lemma signIn_signOut_round_trip_witness :
  reachable (H := plainHost) busyState
  /\ hasActiveSession (lit "Bill Sperling") busyState = false
  /\ activeSessions
       (signOut (lit "Bill Sperling") 8 8
          (signIn (H := plainHost) (lit "Bill Sperling") 6 6 busyState))
     = activeSessions busyState.
Proof.
  assert (Hr : reachable (H := plainHost) busyState)
    by (exists 4, 0, busyTrace; vm_compute; reflexivity).
  split; [exact Hr|]. split; [vm_compute; reflexivity|].
  refine (proj1 (signIn_signOut_round_trip (H := plainHost)
                   (HL := plainHost_laws) busyState (lit "Bill Sperling")
                   6 6 8 8 Hr _ _)).
  - vm_compute. discriminate.
  - vm_compute. reflexivity.
Defined.

(** ** Deleting, clearing and what needs a confirmation *)

Lemma existsb_filter_negb {A : Type} (p : A -> bool) (l : list A) :
  existsb p (filter (fun x => negb (p x)) l) = false.
Proof.
  induction l as [|x l IH]; simpl; [reflexivity|].
  destruct (p x) eqn:E; simpl; [exact IH|]. now rewrite E.
Qed.

Lemma filter_both {A : Type} (p q : A -> bool) (l : list A) :
  filter q (filter p l) = filter (fun x => p x && q x) l.
Proof.
  induction l as [|x l IH]; simpl; [reflexivity|].
  destruct (p x); simpl; [|exact IH]. destruct (q x); now rewrite IH.
Qed.

(** What deleting does to the merged view: the entries of that name go,
    the others stay in their order. *)
Lemma sessionLog_filter (n : jsstring) (st st' : State) :
  activeSessions st' =
    filter (fun s => negb (jsstring_eqb (s_name s) n)) (activeSessions st) ->
  attendanceLog st' =
    filter (fun l => negb (jsstring_eqb (e_name l) n)) (attendanceLog st) ->
  sessionLog st' = filter (fun v => negb (named n v)) (sessionLog st).
Proof.
  intros Ha Hl. unfold sessionLog. rewrite Ha, Hl.
  rewrite (filter_sort bySessionLog (Consistent0 := bySessionLog_consistent)).
  now rewrite filter_app, !filter_map_comm.
Qed.

(** X6. Asking to delete with no member in the dialog does nothing. With a
    member in the dialog, the request followed by the confirmation removes
    every member, active session and log entry of exactly that name and
    nothing else, so the merged view is the old one without the entries of
    that name; both dialogs are closed and the task number is kept. *)
Theorem delete_confirmed_removes_everywhere `{Host} (st : State) (tid : Z) :
  (memberToEdit st = None -> handleDeleteMember st = st)
  /\ (forall edited, memberToEdit st = Some edited ->
        members (st |> handleDeleteMember |> handleConfirm tid) =
          filter (fun m => negb (jsstring_eqb (m_name m) (m_name edited)))
                 (members st)
        /\ sessionLog (st |> handleDeleteMember |> handleConfirm tid) =
             filter (fun v => negb (named (m_name edited) v)) (sessionLog st)
        /\ existsb (fun m => jsstring_eqb (m_name m) (m_name edited))
             (members (st |> handleDeleteMember |> handleConfirm tid)) = false
        /\ existsb (named (m_name edited))
             (sessionLog (st |> handleDeleteMember |> handleConfirm tid)) = false
        /\ isConfirmModalOpen (st |> handleDeleteMember |> handleConfirm tid)
           = false
        /\ isAddEditModalOpen (st |> handleDeleteMember |> handleConfirm tid)
           = false
        /\ taskNumber (st |> handleDeleteMember |> handleConfirm tid)
           = taskNumber st).
Proof.
  split.
  - intros Hn. unfold handleDeleteMember. now rewrite Hn.
  - intros edited Hed. unfold handleDeleteMember. rewrite Hed.
    unfold handleConfirm. simpl.
    assert (Hview : forall st',
      activeSessions st' =
        filter (fun s => negb (jsstring_eqb (s_name s) (m_name edited)))
               (activeSessions st) ->
      attendanceLog st' =
        filter (fun l => negb (jsstring_eqb (e_name l) (m_name edited)))
               (attendanceLog st) ->
      sessionLog st' =
        filter (fun v => negb (named (m_name edited) v)) (sessionLog st))
      by (intros st'; apply sessionLog_filter).
    split; [reflexivity|].
    split; [now apply Hview|].
    split; [apply (existsb_filter_negb
                     (fun m => jsstring_eqb (m_name m) (m_name edited)))|].
    split; [|now repeat split].
    match goal with
    | |- existsb _ (sessionLog ?s) = false => rewrite (Hview s) by reflexivity
    end.
    apply existsb_filter_negb.
Qed.

Lemma delete_confirmed_removes_everywhere_witness :
  memberToEdit barryDialog = Some {| m_name := barry |}
  /\ map v_name (sessionLog barryDialog)
     = [barry; lit "Ben Peach"; andres; barry]
  /\ map v_name
       (sessionLog (barryDialog |> handleDeleteMember
                                |> handleConfirm (H := plainHost) 9))
     = [lit "Ben Peach"; andres]
  /\ existsb (fun m => jsstring_eqb (m_name m) barry)
       (members (barryDialog |> handleDeleteMember
                             |> handleConfirm (H := plainHost) 9)) = false.
Proof.
  split; [reflexivity|]. split; [vm_compute; reflexivity|].
  split; [vm_compute; reflexivity|].
  destruct (proj2 (delete_confirmed_removes_everywhere (H := plainHost)
                     barryDialog 9) {| m_name := barry |} eq_refl)
    as (_ & _ & Hgone & _).
  exact Hgone.
Defined.

(** X7. Only six handlers write to the persisted data: sign-in, sign-out,
    saving a member, confirming, saving the list and starting a task. Every
    other action (opening, closing and typing into dialogs, asking to
    delete, to clear or for a new task, downloading, a toast expiring)
    leaves roster, sessions, log and task number as they were; and a
    confirmation writes only when a deletion or a clearing was asked for. *)
Theorem only_six_handlers_write `{Host} (ev : Event) (st : State) :
  (writesStore ev = false -> storeOf (step ev st) = storeOf st)
  /\ (forall now,
        cm_onConfirm (confirmModalProps st) = noAction \/
        cm_onConfirm (confirmModalProps st) = startNewTaskFlow ->
        storeOf (handleConfirm now st) = storeOf st).
Proof.
  split.
  - intros Hw. destruct ev; try discriminate Hw; simpl; try reflexivity.
    + unfold openAddEditModal. now destruct mode, member.
    + unfold handleDeleteMember. now destruct (memberToEdit st).
    + unfold openNewTaskModal. now destruct (_ || _).
    + unfold handleClearLog. now destruct (_ && _).
  - intros now [Ha|Ha]; unfold handleConfirm; now rewrite Ha.
Qed.

Lemma only_six_handlers_write_witness :
  writesStore DeleteMember = false
  /\ storeOf (step (H := plainHost) DeleteMember barryDialog)
     = storeOf barryDialog
  /\ storeOf (closeConfirmModal (step (H := plainHost) DeleteMember barryDialog))
     = storeOf barryDialog.
Proof.
  split; [reflexivity|].
  assert (Hd : storeOf (step (H := plainHost) DeleteMember barryDialog)
               = storeOf barryDialog)
    by exact (proj1 (only_six_handlers_write (H := plainHost)
                       DeleteMember barryDialog) eq_refl).
  split; [exact Hd|].
  rewrite <- Hd.
  exact (proj1 (only_six_handlers_write (H := plainHost) CloseConfirmModal
                  (step (H := plainHost) DeleteMember barryDialog)) eq_refl).
Defined.

(** X8. Clearing the log with nothing to clear does nothing at all, not
    even open the confirmation. Otherwise the request followed by the
    confirmation empties the active sessions and the log, keeps roster and
    task number, and the export then carries the no-records line. *)
Theorem clearLog_confirmed_empties `{Host} (st : State) (tid generated : Z) :
  (activeSessions st = [] -> attendanceLog st = [] -> handleClearLog st = st)
  /\ (sessionLog st <> [] ->
      activeSessions (st |> handleClearLog |> handleConfirm tid) = []
      /\ attendanceLog (st |> handleClearLog |> handleConfirm tid) = []
      /\ members (st |> handleClearLog |> handleConfirm tid) = members st
      /\ taskNumber (st |> handleClearLog |> handleConfirm tid) = taskNumber st
      /\ isConfirmModalOpen (st |> handleClearLog |> handleConfirm tid) = false
      /\ includes
           (exportContent generated (st |> handleClearLog |> handleConfirm tid))
           noRecordsMessage = true).
Proof.
  split.
  - intros Ha Hl. unfold handleClearLog. now rewrite Ha, Hl.
  - intros Hne.
    assert (Hsome : negb (someNonEmpty (activeSessions st)) &&
                    negb (someNonEmpty (attendanceLog st)) = false).
    { destruct (activeSessions st) eqn:Ha, (attendanceLog st) eqn:Hl;
        try reflexivity.
      exfalso. apply Hne. unfold sessionLog. now rewrite Ha, Hl. }
    unfold handleClearLog. rewrite Hsome. unfold handleConfirm. simpl.
    repeat (split; [reflexivity|]).
    rewrite exportContent_empty by reflexivity.
    rewrite (app_assoc (exportHeader _ _) newline). apply includes_infix.
Qed.

Lemma clearLog_confirmed_empties_witness :
  (activeSessions startState = [] /\ attendanceLog startState = []
   /\ handleClearLog startState = startState)
  /\ (sessionLog busyState <> []
      /\ sessionLog (busyState |> handleClearLog
                               |> handleConfirm (H := plainHost) 9) = []).
Proof.
  split.
  - split; [reflexivity|]. split; [reflexivity|].
    exact (proj1 (clearLog_confirmed_empties (H := plainHost) startState 0 0)
             eq_refl eq_refl).
  - assert (Hne : sessionLog busyState <> []) by (vm_compute; discriminate).
    split; [exact Hne|].
    destruct (proj2 (clearLog_confirmed_empties (H := plainHost) busyState 9 0)
                Hne) as (Ha & Hl & _).
    unfold sessionLog. now rewrite Ha, Hl.
Defined.

(** ** Editing the whole list *)

Section EditList.
Context `{HL : HostLaws}.

Lemma removeAll_editingMemberList (names : list jsstring) (st : State) :
  editingMemberList (removeAll names st) =
  filter (keptBy names) (editingMemberList st).
Proof.
  unfold removeAll. revert st.
  induction names as [|n names IH]; intros st; simpl.
  - symmetry. now apply filter_all.
  - rewrite IH. simpl. rewrite filter_both. apply filter_ext.
    intros m. unfold keptBy. simpl. now rewrite negb_orb.
Qed.

End EditList.

(** X9. In a reachable state, opening the list dialog, striking names and
    saving leaves as roster the old roster without the struck names, in the
    old order; with no name struck the roster is what it was. In either
    case the save discards every active session and the whole log. *)
Theorem edit_list_saved `{HL : HostLaws} (st : State) (names : list jsstring)
    (tid : Z) :
  reachable st ->
  members (st |> openListEditModal |> removeAll names
              |> handleSaveMemberList tid)
    = filter (keptBy names) (members st)
  /\ members (st |> openListEditModal |> handleSaveMemberList tid) = members st
  /\ activeSessions (st |> openListEditModal |> removeAll names
                        |> handleSaveMemberList tid) = []
  /\ attendanceLog (st |> openListEditModal |> removeAll names
                       |> handleSaveMemberList tid) = [].
Proof.
  intros Hr. pose proof (reachable_rosterSorted st Hr) as Hs.
  unfold rosterSorted in Hs.
  split; [|split; [|split; reflexivity]].
  - unfold handleSaveMemberList. simpl.
    rewrite map_member_eta, removeAll_editingMemberList. simpl.
    apply sort_sorted_id;
      first [exact byMemberName_consistent
            | apply filter_sorted;
              first [exact byMemberName_consistent | exact Hs]].
  - unfold handleSaveMemberList. simpl. rewrite map_member_eta.
    apply sort_sorted_id; first [exact byMemberName_consistent | exact Hs].
Qed.

Lemma edit_list_saved_witness :
  reachable (H := plainHost) busyState
  /\ length (activeSessions busyState) = 3%nat
  /\ members (busyState |> openListEditModal |> removeAll [barry; andres]
                        |> handleSaveMemberList (H := plainHost) 9)
     = filter (keptBy [barry; andres]) (members busyState)
  /\ members (busyState |> openListEditModal
                        |> handleSaveMemberList (H := plainHost) 9)
     = members busyState
  /\ activeSessions (busyState |> openListEditModal
                               |> removeAll [barry; andres]
                               |> handleSaveMemberList (H := plainHost) 9)
     = [].
Proof.
  assert (Hr : reachable (H := plainHost) busyState)
    by (exists 4, 0, busyTrace; vm_compute; reflexivity).
  split; [exact Hr|]. split; [reflexivity|].
  destruct (edit_list_saved (H := plainHost) (HL := plainHost_laws)
              busyState [barry; andres] 9 Hr) as (Hcut & Hsame & Ha & _).
  split; [exact Hcut|]. split; [exact Hsame | exact Ha].
Defined.

(** ** Renaming: what is refused and what is not *)

(** X10. In the rename dialog a name that trims to nothing is refused, and
    so is one whose lower-case form is that of a member of another name.
    A name with the lower-case form of the edited member's own name is
    accepted when no two members share a lower-case form: a member can be
    renamed to another spelling of its own name. *)
Theorem rename_validation `{Host} (st : State) (tid : Z) (edited : Member) :
  modalMode st = Some edit -> memberToEdit st = Some edited ->
  (trim (memberNameInput st) = [] ->
     rejected EmptyName st (handleSaveMember tid st))
  /\ (trim (memberNameInput st) <> [] ->
      (exists m, In m (members st) /\ m_name m <> m_name edited /\
         toLowerCase (m_name m) = toLowerCase (trim (memberNameInput st))) ->
      rejected DuplicateName st (handleSaveMember tid st))
  /\ (trim (memberNameInput st) <> [] ->
      NoDup (map lowerName (members st)) -> In edited (members st) ->
      toLowerCase (trim (memberNameInput st)) = toLowerCase (m_name edited) ->
      error (handleSaveMember tid st) = []
      /\ In {| m_name := trim (memberNameInput st) |}
            (members (handleSaveMember tid st))
      /\ length (members (handleSaveMember tid st)) = length (members st)).
Proof.
  intros Hmode Hed. split; [|split].
  - intros He. unfold rejected, handleSaveMember. now rewrite He.
  - intros Hne (m & Hm & Hdiff & Hlow). apply isEmpty_false in Hne.
    unfold rejected, handleSaveMember. rewrite Hne.
    replace (isDuplicate _ st) with true; [reflexivity|].
    symmetry. unfold isDuplicate. rewrite Hmode, Hed. simpl.
    apply existsb_exists. exists m. split; [exact Hm|].
    apply andb_true_iff. split; [now apply jsstring_eqb_eq|].
    now apply negb_true_iff, jsstring_eqb_neq.
  - intros Hne Hnd Hin Hlow.
    assert (Hd : isDuplicate (trim (memberNameInput st)) st = false).
    { apply (isDuplicate_edit_false _ edited); trivial.
      intros m Hm Hl. rewrite Hlow in Hl.
      (* two members of one lower-case form are one member *)
      clear - Hnd Hin Hm Hl. induction (members st) as [|x l IH];
        [destruct Hm|].
      simpl in Hnd. inversion Hnd as [|y l' Hx Hl']; subst.
      destruct Hm as [->|Hm], Hin as [->|Hin]; trivial.
      - exfalso. apply Hx. apply in_map_iff. exists edited.
        split; [now symmetry | exact Hin].
      - exfalso. apply Hx. apply in_map_iff. exists m. now split.
      - now apply IH. }
    rewrite (handleSaveMember_edit st tid edited Hmode Hed Hne Hd). simpl.
    split; [reflexivity|]. split.
    + apply sort_In. apply in_map_iff. exists edited. split; [|exact Hin].
      unfold renameMemberIn. now rewrite jsstring_eqb_refl.
    + now rewrite sort_length, length_map.
Qed.

Lemma plain_predefined_distinct_sorted :
  NoDup (map (lowerName (H := plainHost)) (members barryShouted)).
Proof.
  change (members barryShouted) with (members startState).
  unfold startState.
  change (members (initialState (H := plainHost)))
    with (sortedPredefinedMembers (H := plainHost)).
  apply sort_keeps_distinct. rewrite map_map. exact plain_predefined_distinct.
Qed.

Lemma rename_validation_witness :
  modalMode barryShouted = Some edit
  /\ memberToEdit barryShouted = Some {| m_name := barry |}
  /\ error (handleSaveMember (H := plainHost) 9 barryShouted) = []
  /\ In {| m_name := lit "BARRY SAVITSKOFF" |}
        (members (handleSaveMember (H := plainHost) 9 barryShouted)).
Proof.
  split; [reflexivity|]. split; [reflexivity|].
  destruct (rename_validation (H := plainHost) barryShouted 9
              {| m_name := barry |} eq_refl eq_refl) as (_ & _ & Hself).
  destruct Hself as (Herr & Hin & _).
  - vm_compute. discriminate.
  - exact plain_predefined_distinct_sorted.
  - vm_compute. right. left. reflexivity.
  - vm_compute. reflexivity.
  - split; [exact Herr | exact Hin].
Defined.

(** ** The downloaded file *)

Lemma isFileNameUnit_sanitized (c : N) :
  isFileNameUnit (if isAlphaNum c then c else 95%N) = true.
Proof.
  unfold isFileNameUnit. destruct (isAlphaNum c) eqn:E; [now rewrite E|].
  apply orb_true_r.
Qed.

(** X11. The task number written into the file name has the length of the
    task number and consists of ASCII letters, digits and underscores only;
    a task number that already does is written unchanged, and sanitizing
    twice changes nothing more. The date part of the name holds no T. *)
Theorem sanitize_safe (s : jsstring) :
  Forall (fun c => isFileNameUnit c = true) (sanitize s)
  /\ length (sanitize s) = length s
  /\ sanitize (sanitize s) = sanitize s
  /\ (Forall (fun c => isAlphaNum c = true) s -> sanitize s = s)
  /\ ~ In 84%N (beforeT s).
Proof.
  unfold sanitize. repeat split.
  - apply Forall_map, Forall_forall. intros c _. apply isFileNameUnit_sanitized.
  - apply length_map.
  - rewrite map_map. apply map_ext. intros c.
    destruct (isAlphaNum c) eqn:E; [now rewrite E | reflexivity].
  - intros Hall. induction Hall as [|c l Hc _ IH]; simpl; [reflexivity|].
    now rewrite Hc, IH.
  - induction s as [|c l IH]; simpl; [tauto|].
    destruct (c =? 84)%N eqn:E; [tauto|]. apply N.eqb_neq in E.
    intros [Hc|Hin]; [congruence | now apply IH].
Qed.

Lemma sanitize_safe_witness :
  sanitize awkwardTaskNumber = lit "2024_05_caf_"
  /\ Forall (fun c => isAlphaNum c = true) (lit "Task7")
  /\ sanitize (lit "Task7") = lit "Task7".
Proof.
  split; [reflexivity|].
  assert (Hall : Forall (fun c => isAlphaNum c = true) (lit "Task7"))
    by (repeat constructor).
  split; [exact Hall|].
  destruct (sanitize_safe (lit "Task7")) as (_ & _ & _ & Hid & _).
  exact (Hid Hall).
Defined.

Section Alignment.
Context `{Host}.

Lemma leadingColumns_length (w : nat) (v : SessionView) :
  (length (v_name v) <= w)%nat ->
  (length (toLocaleStringShort (v_signInTime v)) <= 22)%nat ->
  length (leadingColumns w v) = (w + 43)%nat.
Proof.
  intros Hn Ht. unfold leadingColumns, formatDateTime.
  rewrite !length_app.
  rewrite (padEnd_length (v_name v) w Hn).
  rewrite (padEnd_length (toLocaleStringShort (v_signInTime v)) 22 Ht).
  rewrite (padEnd_length (statusText (v_status v)) 12)
    by (destruct (v_status v); simpl; lia).
  change (length separator) with 3%nat. lia.
Qed.

End Alignment.

(** X12. The table of the export is aligned: when every sign-in time is
    rendered in at most 22 code units, each row consists of its leading
    columns, of the same length as those of the column header (the name
    width plus 43), followed by the sign-out text and a line break; the
    rule below the header is 23 code units longer than that. *)
Theorem export_columns_align `{Host} (st : State) :
  (forall v, In v (sessionLog st) ->
     (length (toLocaleStringShort (v_signInTime v)) <= 22)%nat) ->
  (forall v, In v (sessionLog st) ->
     length (leadingColumns (maxNameLength (sessionLog st)) v)
       = (maxNameLength (sessionLog st) + 43)%nat
     /\ exportRow (maxNameLength (sessionLog st)) v =
        leadingColumns (maxNameLength (sessionLog st)) v ++
        match v_signOutTime v with
        | Some t => toLocaleStringShort t
        | None => lit "..."
        end ++ newline)
  /\ (exists head,
        exportColumns (maxNameLength (sessionLog st)) =
          head ++ lit "Signed Out" ++ newline
        /\ length head = (maxNameLength (sessionLog st) + 43)%nat)
  /\ length (exportRule (maxNameLength (sessionLog st)))
     = (maxNameLength (sessionLog st) + 43 + 23)%nat.
Proof.
  intros Hshort.
  destruct (maxNameLength_bounds (sessionLog st)) as (Hall & Hmin & _).
  split; [|split].
  - intros v Hv. split.
    + apply leadingColumns_length; [|now apply Hshort].
      eapply Forall_forall in Hall; [exact Hall | exact Hv].
    + unfold exportRow, leadingColumns. rewrite <- !app_assoc.
      now destruct (v_signOutTime v).
  - exists (padEnd (lit "Member") (maxNameLength (sessionLog st)) ++ separator ++
            padEnd (lit "Status") 12 ++ separator ++
            padEnd (lit "Signed In") 22 ++ separator).
    split.
    + unfold exportColumns. now rewrite <- !app_assoc.
    + rewrite !length_app, !padEnd_length; simpl; try lia. exact Hmin.
  - unfold exportRule, dashes. rewrite !length_app, !repeat_length. simpl. lia.
Qed.

Lemma export_columns_align_witness :
  (forall v, In v (sessionLog busyState) ->
     (length (toLocaleStringShort (Host := plainHost) (v_signInTime v)) <= 22)%nat)
  /\ Forall (fun v =>
       length (leadingColumns (H := plainHost)
                 (maxNameLength (sessionLog busyState)) v) = 59%nat)
       (sessionLog busyState).
Proof.
  assert (Hshort : forall v, In v (sessionLog busyState) ->
            (length (toLocaleStringShort (Host := plainHost) (v_signInTime v))
             <= 22)%nat).
  { intros v Hv. vm_compute in Hv.
    repeat (destruct Hv as [<-|Hv]; [vm_compute; lia|]). destruct Hv. }
  split; [exact Hshort|].
  apply Forall_forall. intros v Hv.
  exact (proj1 (proj1 (export_columns_align (H := plainHost) busyState Hshort)
                  v Hv)).
Defined.

(** ** Toasts *)

Lemma filter_snoc_fresh (id : Z) (l : list Toast) (extra : list Toast) :
  Forall (fun t => t_id t <> id) l -> Forall (fun t => t_id t = id) extra ->
  filter (fun t => negb (t_id t =? id)) (l ++ extra) = l.
Proof.
  intros Hl He. rewrite filter_app.
  replace (filter _ extra) with (@nil Toast).
  - rewrite app_nil_r. apply filter_all. intros t Ht.
    eapply Forall_forall in Hl; [|exact Ht]. apply negb_true_iff.
    now apply Z.eqb_neq.
  - symmetry. induction He as [|t e Ht _ IH]; simpl; [reflexivity|].
    now rewrite Ht, Z.eqb_refl.
Qed.

(** X13. A toast goes when its timer fires: if no earlier toast carries the
    same clock reading as id, the timer of a toast restores the state from
    before the toast. Two toasts raised at the same reading share the id,
    and the first timer to fire removes both. No timer removes a toast of
    another id. *)
Theorem toast_expires (st : State) (id : Z) :
  Forall (fun t => t_id t <> id) (toasts st) ->
  (forall m ty, toastTimeout id (addToast m ty id st) = st)
  /\ (forall m1 ty1 m2 ty2,
        toastTimeout id (addToast m2 ty2 id (addToast m1 ty1 id st)) = st)
  /\ (forall other t, In t (toasts st) -> t_id t <> other ->
        In t (toasts (toastTimeout other st))).
Proof.
  intros Hfresh. split; [|split].
  - intros m ty. unfold toastTimeout, addToast. simpl.
    rewrite (filter_snoc_fresh id (toasts st)); trivial;
      [|now repeat constructor].
    destruct st; reflexivity.
  - intros m1 ty1 m2 ty2. unfold toastTimeout, addToast. simpl.
    rewrite <- app_assoc.
    rewrite (filter_snoc_fresh id (toasts st)); trivial;
      [|now repeat constructor].
    destruct st; reflexivity.
  - intros other t Hin Hneq. unfold toastTimeout. simpl.
    apply filter_In. split; [exact Hin|].
    now apply negb_true_iff, Z.eqb_neq.
Qed.

Lemma toast_expires_witness :
  Forall (fun t => t_id t <> 9) (toasts busyState)
  /\ toastTimeout 9 (addToast (lit "Log downloaded.") info 9 busyState)
     = busyState.
Proof.
  assert (Hfresh : Forall (fun t => t_id t <> 9) (toasts busyState))
    by (vm_compute; repeat constructor; discriminate).
  split; [exact Hfresh|].
  exact (proj1 (toast_expires busyState 9 Hfresh) (lit "Log downloaded.") info).
Defined.

(** ** The merged list of the unpersisted variant *)

#[local] Instance byCombined_consistent : Consistent byCombined.
Proof. split; unfold byCombined; intros; lia. Qed.

#[local] Instance byLogStart_consistent : Consistent byLogStart.
Proof. split; unfold byLogStart; intros; lia. Qed.

(** X14. The merged list of the unpersisted variant holds exactly the
    active sessions, each without a sign-out time, and the log entries, and
    is ordered by sign-in time alone, latest first. *)
Theorem combinedLog_by_time (st : State) :
  Permutation (combinedLog st)
    (map combinedOfActive (activeSessions st) ++
     map combinedOfLog (attendanceLog st))
  /\ StronglySorted (fun a b => c_signInTime b <= c_signInTime a)
       (combinedLog st).
Proof.
  split; [apply sort_perm|].
  eapply StronglySorted_impl; [|apply sort_sorted; exact byCombined_consistent].
  intros a b. unfold before, byCombined. lia.
Qed.

(** X15. The two variants show the same list, status apart, whenever no
    log entry was started after an active session: then sorting by time
    alone already puts the members present first. *)
Theorem variants_agree (st : State) :
  (forall s e, In s (activeSessions st) -> In e (attendanceLog st) ->
     e_signInTime e <= s_signInTime s) ->
  combinedLog st = map sansStatus (sessionLog st).
Proof.
  intros Hlate. rewrite sessionLog_split, map_app. unfold combinedLog.
  rewrite sort_app.
  - f_equal.
    + rewrite (sort_map byStart byCombined combinedOfActive) by reflexivity.
      rewrite (sort_map byStart bySessionLog viewOfActive) by reflexivity.
      now rewrite map_map.
    + rewrite (sort_map byLogStart byCombined combinedOfLog) by reflexivity.
      rewrite (sort_map byLogStart bySessionLog viewOfLog) by reflexivity.
      now rewrite map_map.
  - intros a b Ha Hb. apply in_map_iff in Ha as (s & <- & Hs).
    apply in_map_iff in Hb as (e & <- & He).
    unfold before, byCombined. simpl. specialize (Hlate s e Hs He). lia.
Qed.

Lemma variants_agree_witness :
  (forall s e, In s (activeSessions oneEach) -> In e (attendanceLog oneEach) ->
     e_signInTime e <= s_signInTime s)
  /\ map c_name (combinedLog oneEach) = [andres; barry]
  /\ combinedLog oneEach = map sansStatus (sessionLog oneEach).
Proof.
  assert (Hlate : forall s e, In s (activeSessions oneEach) ->
                    In e (attendanceLog oneEach) ->
                    e_signInTime e <= s_signInTime s).
  { assert (Ha : activeSessions oneEach
                 = [{| s_name := andres; s_signInTime := 4 |}])
      by (vm_compute; reflexivity).
    assert (Hl : attendanceLog oneEach
                 = [{| e_name := barry; e_signInTime := 1; e_signOutTime := 3 |}])
      by (vm_compute; reflexivity).
    intros s e Hs He. rewrite Ha in Hs. rewrite Hl in He.
    destruct Hs as [<-|[]], He as [<-|[]]. simpl. lia. }
  split; [exact Hlate|]. split; [vm_compute; reflexivity|].
  exact (variants_agree oneEach Hlate).
Defined.

(** Where a member left before the one now present arrived, the two
    variants differ: the unpersisted one lists the departed member first. *)
Example variants_differ :
  map v_name (sessionLog lateArrival) = [andres; barry] /\
  map c_name (combinedLog lateArrival) = [barry; andres].
Proof. split; vm_compute; reflexivity. Qed.

(** ** Blank input *)

Lemma trimStart_nil_iff (s : jsstring) : trimStart s = [] <-> isBlank s.
Proof.
  unfold isBlank. induction s as [|c s IH]; simpl.
  - split; [constructor | reflexivity].
  - destruct (isWhiteSpace c) eqn:E.
    + rewrite IH. split; [now constructor | now inversion 1].
    + split; [discriminate|]. inversion 1; congruence.
Qed.

Lemma trimStart_head (s : jsstring) (c : N) (r : jsstring) :
  trimStart s = c :: r -> isWhiteSpace c = false.
Proof.
  induction s as [|d s IH]; simpl; [discriminate|].
  destruct (isWhiteSpace d) eqn:E; [exact IH|]. now intros [= <- _].
Qed.

(** [trim] leaves nothing exactly of the strings of white space. *)
Lemma trim_nil_iff (s : jsstring) : trim s = [] <-> isBlank s.
Proof.
  unfold trim, trimEnd. rewrite <- trimStart_nil_iff. split.
  - intros Hnil.
    assert (Hrev : trimStart (rev (trimStart s)) = [])
      by (now rewrite <- (rev_involutive (trimStart _)), Hnil).
    apply trimStart_nil_iff in Hrev. unfold isBlank in Hrev.
    destruct (trimStart s) as [|c r] eqn:E; [reflexivity|].
    apply trimStart_head in E.
    rewrite Forall_forall in Hrev.
    specialize (Hrev c). rewrite <- in_rev in Hrev.
    specialize (Hrev (or_introl eq_refl)). congruence.
  - intros Hnil. now rewrite Hnil.
Qed.

(** X16. Saving in the member dialog, in either mode, reports that the
    name cannot be empty exactly when the typed name consists of white
    space only (the empty name included); the state is then otherwise
    unchanged. *)
Theorem empty_name_error_iff_blank `{Host} (st : State) (tid : Z) :
  (error (handleSaveMember tid st) = validationMessage EmptyName
   <-> isBlank (memberNameInput st))
  /\ (isBlank (memberNameInput st) ->
      rejected EmptyName st (handleSaveMember tid st)).
Proof.
  assert (Hrej : isBlank (memberNameInput st) ->
                 rejected EmptyName st (handleSaveMember tid st)).
  { intros Hb. apply trim_nil_iff in Hb.
    unfold rejected, handleSaveMember. now rewrite Hb. }
  split; [|exact Hrej]. split.
  - intros Herr. apply trim_nil_iff.
    destruct (trim (memberNameInput st)) as [|c r] eqn:Ht; [reflexivity|].
    exfalso. revert Herr. unfold handleSaveMember. rewrite Ht. simpl.
    destruct (isDuplicate _ _); [discriminate|].
    destruct (modalMode st) as [[|]|]; try discriminate.
    destruct (memberToEdit st); discriminate.
  - intros Hb. now rewrite (Hrej Hb).
Qed.

Lemma empty_name_error_iff_blank_witness :
  isBlank (memberNameInput (setMemberNameInput [32; 9; 160]%N zoeDialog))
  /\ rejected EmptyName (setMemberNameInput [32; 9; 160]%N zoeDialog)
       (handleSaveMember (H := plainHost) 7
          (setMemberNameInput [32; 9; 160]%N zoeDialog)).
Proof.
  assert (Hb : isBlank
                 (memberNameInput (setMemberNameInput [32; 9; 160]%N zoeDialog)))
    by (repeat constructor).
  split; [exact Hb|].
  exact (proj2 (empty_name_error_iff_blank (H := plainHost)
                  (setMemberNameInput [32; 9; 160]%N zoeDialog) 7) Hb).
Defined.

Section NewTask.
Context `{Host}.

Lemma default_task_number_not_blank (now : Z) :
  trim (generateDefaultTaskNumber now) <> [].
Proof.
  intros Hnil. apply trim_nil_iff in Hnil. unfold isBlank in Hnil.
  rewrite Forall_forall in Hnil. specialize (Hnil 45%N).
  assert (Hin : In 45%N (generateDefaultTaskNumber now)).
  { unfold generateDefaultTaskNumber. rewrite !in_app_iff.
    right. right. right. now left. }
  specialize (Hnil Hin). discriminate Hnil.
Qed.

End NewTask.

(** X17. The task number the new-task dialog proposes is never blank, so
    accepting it always starts a task: directly when there are no records,
    and after the confirmation when there are, the task number becomes the
    trimmed proposal, the active sessions and the log are emptied and the
    roster is kept. Until the start is pressed nothing is cleared. *)
Theorem proposed_task_number_starts_task `{Host} (st : State)
    (now0 now tid : Z) :
  (sessionLog st = [] ->
     taskNumber (st |> openNewTaskModal now |> handleStartNewTask tid)
       = trim (generateDefaultTaskNumber now)
     /\ taskNumber (st |> openNewTaskModal now |> handleStartNewTask tid) <> []
     /\ members (st |> openNewTaskModal now |> handleStartNewTask tid)
        = members st)
  /\ (sessionLog st <> [] ->
      storeOf (st |> openNewTaskModal now0 |> handleConfirm now) = storeOf st
      /\ taskNumber (st |> openNewTaskModal now0 |> handleConfirm now
                        |> handleStartNewTask tid)
         = trim (generateDefaultTaskNumber now)
      /\ sessionLog (st |> openNewTaskModal now0 |> handleConfirm now
                        |> handleStartNewTask tid) = []
      /\ members (st |> openNewTaskModal now0 |> handleConfirm now
                     |> handleStartNewTask tid) = members st).
Proof.
  pose proof (default_task_number_not_blank now) as Hnb.
  apply isEmpty_false in Hnb.
  split.
  - intros He.
    assert (Hnone : someNonEmpty (activeSessions st) ||
                    someNonEmpty (attendanceLog st) = false).
    { destruct (activeSessions st) eqn:Ha, (attendanceLog st) eqn:Hl;
        try reflexivity; exfalso;
        apply (f_equal (@length _)) in He;
        rewrite (Permutation_length (sessionLog_perm st)), Ha, Hl in He;
        discriminate He. }
    unfold openNewTaskModal. rewrite Hnone.
    unfold handleStartNewTask, runStartNewTaskFlow. simpl. rewrite Hnb. simpl.
    split; [reflexivity|]. split; [|reflexivity].
    now apply isEmpty_false.
  - intros Hne.
    assert (Hsome : someNonEmpty (activeSessions st) ||
                    someNonEmpty (attendanceLog st) = true).
    { destruct (activeSessions st) eqn:Ha, (attendanceLog st) eqn:Hl;
        try reflexivity.
      exfalso. apply Hne. unfold sessionLog. now rewrite Ha, Hl. }
    unfold openNewTaskModal. rewrite Hsome.
    unfold handleConfirm. simpl. split; [reflexivity|].
    unfold handleStartNewTask. simpl. rewrite Hnb. simpl.
    repeat split.
Qed.

Lemma proposed_task_number_starts_task_witness :
  sessionLog busyState <> []
  /\ taskNumber (busyState |> openNewTaskModal (H := plainHost) 5
                           |> handleConfirm (H := plainHost) 6
                           |> handleStartNewTask 7)
     = lit "19700101-01"
  /\ sessionLog (busyState |> openNewTaskModal (H := plainHost) 5
                           |> handleConfirm (H := plainHost) 6
                           |> handleStartNewTask 7) = [].
Proof.
  assert (Hne : sessionLog busyState <> []) by (vm_compute; discriminate).
  split; [exact Hne|]. split; [vm_compute; reflexivity|].
  exact (proj1 (proj2 (proj2 (proj2 (proposed_task_number_starts_task
                                       (H := plainHost) busyState 5 6 7)
                                Hne)))).
Defined.

(** ** Adding and deleting again *)

Section AddDelete.
Context `{HL : HostLaws}.

Lemma fresh_name_all_kept (name : jsstring) (l : list Member) :
  (forall m, In m l -> toLowerCase (m_name m) <> toLowerCase name) ->
  filter (fun m => negb (jsstring_eqb (m_name m) name)) l = l.
Proof.
  intros Hfresh. apply filter_all. intros m Hm. apply negb_true_iff.
  apply jsstring_eqb_neq. intros Heq. apply (Hfresh m Hm). now rewrite Heq.
Qed.

End AddDelete.

(** X18. In a reachable state, adding a member whose trimmed name is not
    empty and shares its lower-case form with no member, and then deleting
    that member, gives back the roster as it was. *)
Theorem add_then_delete_restores_roster `{HL : HostLaws} (st : State)
    (input : jsstring) (tid1 tid2 : Z) :
  reachable st -> trim input <> [] ->
  (forall m, In m (members st) ->
     toLowerCase (m_name m) <> toLowerCase (trim input)) ->
  In {| m_name := trim input |} (members (addMember input tid1 st))
  /\ members (addThenDelete input tid1 tid2 st) = members st.
Proof.
  intros Hr Hne Hfresh.
  pose proof (reachable_rosterSorted st Hr) as Hs. unfold rosterSorted in Hs.
  set (st0 := st |> openAddEditModal add None |> setMemberNameInput input).
  assert (Hadd : addMember input tid1 st =
                 (st0 |> setMembers
                           (sort byMemberName
                              (members st ++ [{| m_name := trim input |}]))
                      |> addToast (lit "New member added.") success tid1
                      |> closeAddEditModal)).
  { unfold addMember. fold st0.
    apply (handleSaveMember_add_members st0 tid1); trivial.
    now apply (isDuplicate_add_false (trim input) st0). }
  split.
  - rewrite Hadd. simpl. apply sort_In, in_or_app. right. now left.
  - unfold addThenDelete. rewrite Hadd. unfold handleDeleteMember. simpl.
    unfold handleConfirm. simpl.
    rewrite (filter_sort byMemberName (Consistent0 := byMemberName_consistent)).
    rewrite filter_app. simpl. rewrite jsstring_eqb_refl. simpl.
    rewrite app_nil_r, (fresh_name_all_kept _ _ Hfresh).
    apply sort_sorted_id; first [exact byMemberName_consistent | exact Hs].
Qed.

Lemma add_then_delete_restores_roster_witness :
  reachable (H := plainHost) busyState
  /\ trim (lit "  Zoe Quinn ") = zoe
  /\ In {| m_name := zoe |}
        (members (addMember (H := plainHost) (lit "  Zoe Quinn ") 7 busyState))
  /\ members (addThenDelete (H := plainHost) (lit "  Zoe Quinn ") 7 8 busyState)
     = members busyState.
Proof.
  assert (Hr : reachable (H := plainHost) busyState)
    by (exists 4, 0, busyTrace; vm_compute; reflexivity).
  split; [exact Hr|]. split; [vm_compute; reflexivity|].
  refine (add_then_delete_restores_roster (H := plainHost)
            (HL := plainHost_laws) busyState (lit "  Zoe Quinn ") 7 8 Hr _ _).
  - vm_compute. discriminate.
  - intros m Hm. vm_compute in Hm.
    repeat (destruct Hm as [<-|Hm]; [vm_compute; discriminate|]).
    destruct Hm.
Defined.
